(** * PiDrone state estimation: scripts/state_estimation.py

    A shallow embedding of the [StateEstimation] class: the geometric
    transform, the process model, the observation models and the three
    sensor callbacks that schedule predict and update on the filter.

    Modelling choices.
    - NumPy floats are read as real numbers ([R]); NaN and infinities have
      no counterpart, so nothing here speaks about non-finite values.
    - A one-dimensional array is a [list R], a two-dimensional one a list
      of rows.
    - A Python exception is the [Raise] outcome of a computation; the
      object's fields keep whatever was assigned before the exception.
    - FilterPy's [UnscentedKalmanFilter] and tf's quaternion conversion are
      libraries outside the repository: they are parameters of the
      scheduler ([FilterLib], [euler_from_quaternion]). *)

From Stdlib Require Import Reals Lra List ZArith Bool Lia.
Import ListNotations.

Open Scope R_scope.

(** ** Outcomes of Python computations *)

Inductive exn : Type :=
| TypeError      (* unsupported operand type(s), e.g. float - None *)
| IndexError     (* index out of bounds *)
| ValueError     (* shapes not aligned in np.dot *)
| LinAlgError.   (* raised inside the filter library *)

Inductive result (A : Type) : Type :=
| Ok (a : A)
| Raise (e : exn).

Arguments Ok {A} a.
Arguments Raise {A} e.

Definition bind_result {A B} (r : result A) (k : A -> result B) : result B :=
  match r with
  | Ok a => k a
  | Raise e => Raise e
  end.

Declare Scope result_scope.
Delimit Scope result_scope with result.
Notation "x <-? r ; k" := (bind_result r (fun x => k))
  (at level 61, r at next level, right associativity) : result_scope.

(** ** The NumPy fragment the class uses *)

Module np.

Definition vector := list R.
Definition matrix := list (list R).

(** [x[i]]: IndexError past the end. *)
Definition item (x : vector) (i : nat) : result R :=
  match nth_error x i with
  | Some v => Ok v
  | None => Raise IndexError
  end.

(** [np.deg2rad(x)] is [x * (pi / 180)]. *)
Definition deg2rad (x : R) : R := x * (PI / 180).

(** Inner product of two rows of equal length. *)
Fixpoint inner (a b : vector) : R :=
  match a, b with
  | x :: a', y :: b' => x * y + inner a' b'
  | _, _ => 0
  end.

(** [np.dot(M, v)] for a 2-D [M] and a 1-D [v]: every row of [M] must be
    as long as [v], otherwise NumPy raises ValueError. *)
Definition dot (M : matrix) (v : vector) : result vector :=
  if forallb (fun row => Nat.eqb (length row) (length v)) M
  then Ok (map (fun row => inner row v) M)
  else Raise ValueError.

(** [a + b] on 1-D arrays of equal length. *)
Fixpoint add (a b : vector) : result vector :=
  match a, b with
  | [], [] => Ok []
  | x :: a', y :: b' =>
      match add a' b' with
      | Ok r => Ok (x + y :: r)
      | Raise e => Raise e
      end
  | _, _ => Raise ValueError
  end.

(** [a * s] for a 1-D array and a scalar. *)
Definition scale (a : vector) (s : R) : vector := map (fun v => v * s) a.

(** Row [i] of [np.eye(n)]. *)
Definition eye_row (n i : nat) : vector :=
  map (fun j => if Nat.eqb i j then 1 else 0) (seq 0 n).

Definition eye (n : nat) : matrix := map (eye_row n) (seq 0 n).

(** Replace position [j] of a row. *)
Fixpoint set_nth (row : vector) (j : nat) (v : R) : vector :=
  match row, j with
  | [], _ => []
  | _ :: t, O => v :: t
  | h :: t, S j' => h :: set_nth t j' v
  end.

(** [M[i, j] = v].  The class only assigns inside the 12x12 bounds; out
    of bounds (IndexError in NumPy) this model leaves [M] as it is. *)
Fixpoint setitem (M : matrix) (i j : nat) (v : R) : matrix :=
  match M, i with
  | [], _ => []
  | row :: t, O => set_nth row j v :: t
  | row :: t, S i' => row :: setitem t i' j v
  end.

(** [np.diag(d)]: the square matrix with [d] on its diagonal. *)
Definition diag (d : vector) : matrix :=
  map (fun i => map (fun j => if Nat.eqb i j then nth i d 0 else 0)
                    (seq 0 (length d)))
      (seq 0 (length d)).

(** Product of two 2-D arrays (used for the reference rotation only). *)
Definition column (M : matrix) (j : nat) : vector :=
  map (fun row => nth j row 0) M.

Definition matmul (A B : matrix) : matrix :=
  map (fun row => map (fun j => inner row (column B j))
                      (seq 0 (length (hd [] B))))
      A.

End np.

(** ** Geometric transform: [apply_rotation_matrix]

    The method reads the attitude from the filter's stored mean
    [self.ukf.x]; [mean] is that array. *)

Definition rotation_matrix (phi theta psi : R) : np.matrix :=
  [ [ cos theta * cos psi;
      sin phi * sin theta * cos psi - cos phi * sin psi;
      cos phi * sin theta * cos psi + sin phi * sin psi ];
    [ cos theta * sin psi;
      sin phi * sin theta * sin psi + cos phi * cos psi;
      cos theta * sin phi ];
    [ - sin theta;
      cos theta * sin phi;
      cos theta * cos phi ] ].

Definition apply_rotation_matrix (mean : np.vector) (original_matrix : np.vector)
  : result np.vector :=
  (roll <-? np.item mean 6 ;
   pitch <-? np.item mean 7 ;
   yaw <-? np.item mean 8 ;
   let phi := np.deg2rad roll in
   let theta := np.deg2rad pitch in
   let psi := np.deg2rad yaw in
   np.dot (rotation_matrix phi theta psi) original_matrix)%result.

(** The composition the specification names, written from its words:
    rotation about x by roll, then about y by pitch, then about z by yaw. *)

Definition rotation_x (a : R) : np.matrix :=
  [ [1; 0; 0]; [0; cos a; - sin a]; [0; sin a; cos a] ].

Definition rotation_y (a : R) : np.matrix :=
  [ [cos a; 0; sin a]; [0; 1; 0]; [- sin a; 0; cos a] ].

Definition rotation_z (a : R) : np.matrix :=
  [ [cos a; - sin a; 0]; [sin a; cos a; 0]; [0; 0; 1] ].

Definition rotation_zyx (roll_deg pitch_deg yaw_deg : R) : np.matrix :=
  np.matmul (rotation_z (np.deg2rad yaw_deg))
            (np.matmul (rotation_y (np.deg2rad pitch_deg))
                       (rotation_x (np.deg2rad roll_deg))).

Definition rotate_to_global_spec (v : np.vector) (roll_deg pitch_deg yaw_deg : R)
  : result np.vector :=
  np.dot (rotation_zyx roll_deg pitch_deg yaw_deg) v.

(** ** Process model: [state_transition_function] *)

(** [F = np.eye(12)] with [dt] written at the six coupling entries. *)
Definition transition_matrix (dt : R) : np.matrix :=
  let F := np.eye 12 in
  let F := np.setitem F 0 3 dt in
  let F := np.setitem F 1 4 dt in
  let F := np.setitem F 2 5 dt in
  let F := np.setitem F 6 9 dt in
  let F := np.setitem F 7 10 dt in
  let F := np.setitem F 8 11 dt in
  F.

Definition state_transition_function
    (mean : np.vector) (x : np.vector) (dt : R) (u : np.vector)
  : result np.vector :=
  (let F := transition_matrix dt in
   accelerations_global_frame <-? apply_rotation_matrix mean u ;
   let velocities_global_frame := np.scale accelerations_global_frame dt in
   v0 <-? np.item velocities_global_frame 0 ;
   v1 <-? np.item velocities_global_frame 1 ;
   v2 <-? np.item velocities_global_frame 2 ;
   let change_from_control_input := [0; 0; 0; v0; v1; v2; 0; 0; 0; 0; 0; 0] in
   Fx <-? np.dot F x ;
   np.add Fx change_from_control_input)%result.

(** ** Observation models *)

Definition measurement_function_ir (x : np.vector) : result np.vector :=
  (roll_deg <-? np.item x 6 ;
   pitch_deg <-? np.item x 7 ;
   let phi := np.deg2rad roll_deg in
   let theta := np.deg2rad pitch_deg in
   let alt_to_r := 1 / (cos theta * cos phi) in
   let H := [ [0; 0; alt_to_r; 0; 0; 0; 0; 0; 0; 0; 0; 0] ] in
   np.dot H x)%result.

Definition measurement_function_optical_flow (x : np.vector) : result np.vector :=
  let H := [ [0; 0; 0; 1; 0; 0; 0; 0; 0; 0; 0; 0];
             [0; 0; 0; 0; 1; 0; 0; 0; 0; 0; 0; 0];
             [0; 0; 0; 0; 0; 0; 0; 0; 0; 0; 0; 1] ] in
  np.dot H x.

Definition measurement_function_rpy (x : np.vector) : result np.vector :=
  let H := [ [0; 0; 0; 0; 0; 0; 1; 0; 0; 0; 0; 0];
             [0; 0; 0; 0; 0; 0; 0; 1; 0; 0; 0; 0];
             [0; 0; 0; 0; 0; 0; 0; 0; 1; 0; 0; 0] ] in
  np.dot H x.

(** ** The filter object and the libraries behind it *)

(** A NumPy array of either rank: the range sensor's covariance is the
    1-D [np.array([0.1])], the other two are 2-D. *)
Inductive ndarray : Type :=
| Arr1 (v : np.vector)
| Arr2 (m : np.matrix).

(** [self.ukf]: the fields the class reads or assigns ([x], [P], [Q]) and
    the library's private ones (sigma points, gain, ...) as [ukf_priv]. *)
Record UKF (I : Type) : Type := mkUKF {
  ukf_x : np.vector;
  ukf_P : np.matrix;
  ukf_Q : np.matrix;
  ukf_priv : I
}.

Arguments mkUKF {I}.
Arguments ukf_x {I}.
Arguments ukf_P {I}.
Arguments ukf_Q {I}.
Arguments ukf_priv {I}.

(** FilterPy's part.  [lib_predict fx dt u k] stands for
    [k.predict(dt=dt, u=u)] on a filter built with the process model [fx];
    [fx] is a bound method, so it is handed the filter object it reads
    [self.ukf.x] from.  [lib_update z hx R k] stands for
    [k.update(z, hx=hx, R=R)].  Either may raise, and leaves the filter in
    the state it returns. *)
Record FilterLib (I : Type) : Type := mkFilterLib {
  lib_new : I;
  lib_predict :
    (UKF I -> np.vector -> R -> np.vector -> result np.vector) ->
    option R -> np.vector -> UKF I -> result unit * UKF I;
  lib_update :
    np.vector -> (np.vector -> result np.vector) -> ndarray ->
    UKF I -> result unit * UKF I
}.

Arguments lib_new {I}.
Arguments lib_predict {I}.
Arguments lib_update {I}.

(** One call into the filter library, as the scheduler issued it. *)
Inductive call : Type :=
| Predict (dt : option R) (u : np.vector)
| Update (z : np.vector) (hx : np.vector -> result np.vector) (Rcov : ndarray).

(** ** ROS messages *)

Record Time : Type := mkTime { secs : Z; nsecs : Z }.

Record Vector3 : Type := mkVector3 { v_x : R; v_y : R; v_z : R }.

Record Quaternion : Type := mkQuaternion { q_x : R; q_y : R; q_z : R; q_w : R }.

Record Imu : Type := mkImu {
  imu_stamp : Time;
  linear_acceleration : Vector3;
  orientation : Quaternion
}.

Record Mode : Type := mkMode {
  mode_stamp : Time;
  x_velocity : R;
  y_velocity : R;
  yaw_velocity : R
}.

Record Range : Type := mkRange {
  range_stamp : Time;
  range : R
}.

(** [msg.header.stamp], for every message that carries a header. *)
Class Stamped (Msg : Type) : Type := stamp : Msg -> Time.

#[export] Instance Imu_Stamped : Stamped Imu := imu_stamp.
#[export] Instance Mode_Stamped : Stamped Mode := mode_stamp.
#[export] Instance Range_Stamped : Stamped Range := range_stamp.

(** [secs + nsecs*1e-9] *)
Definition to_seconds (t : Time) : R := IZR (secs t) + IZR (nsecs t) * 1e-9.

(** ** The estimator object *)

Record StateEstimation (I : Type) : Type := mkStateEstimation {
  ukf : UKF I;
  measurement_cov_ir : ndarray;
  measurement_cov_optical_flow : ndarray;
  measurement_cov_rpy : ndarray;
  last_state_transition_time : option R;
  dt : option R;
  computed_first_prior : bool;
  last_control_input : np.vector;
  last_time_secs : option Z;       (* unset until the first message *)
  last_time_nsecs : option Z;
  calls : list call                (* calls issued to the filter, oldest first *)
}.

Arguments mkStateEstimation {I}.
Arguments ukf {I}.
Arguments measurement_cov_ir {I}.
Arguments measurement_cov_optical_flow {I}.
Arguments measurement_cov_rpy {I}.
Arguments last_state_transition_time {I}.
Arguments dt {I}.
Arguments computed_first_prior {I}.
Arguments last_control_input {I}.
Arguments last_time_secs {I}.
Arguments last_time_nsecs {I}.
Arguments calls {I}.

(** ** Methods: state passing with exceptions

    A method maps the object to an outcome and the object as the method
    left it; an exception stops the method and keeps the assignments made
    so far. *)

Definition M (I A : Type) : Type := StateEstimation I -> result A * StateEstimation I.

Definition ret {I A} (a : A) : M I A := fun self => (Ok a, self).

Definition bind {I A B} (m : M I A) (k : A -> M I B) : M I B :=
  fun self =>
    match m self with
    | (Ok a, self') => k a self'
    | (Raise e, self') => (Raise e, self')
    end.

Definition raise {I A} (e : exn) : M I A := fun self => (Raise e, self).

Definition get {I} : M I (StateEstimation I) := fun self => (Ok self, self).

Definition modify {I} (f : StateEstimation I -> StateEstimation I) : M I unit :=
  fun self => (Ok tt, f self).

Declare Scope method_scope.
Delimit Scope method_scope with method.
Notation "x <- m ;; k" := (bind m (fun x => k))
  (at level 61, m at next level, right associativity) : method_scope.
Notation "m ;; k" := (bind m (fun _ => k))
  (at level 61, right associativity) : method_scope.

Section Setters.
Context {I : Type}.

Definition set_ukf (k : UKF I) (s : StateEstimation I) : StateEstimation I :=
  mkStateEstimation k (measurement_cov_ir s) (measurement_cov_optical_flow s)
    (measurement_cov_rpy s) (last_state_transition_time s) (dt s)
    (computed_first_prior s) (last_control_input s)
    (last_time_secs s) (last_time_nsecs s) (calls s).

Definition set_last_state_transition_time (t : option R) (s : StateEstimation I) :=
  mkStateEstimation (ukf s) (measurement_cov_ir s) (measurement_cov_optical_flow s)
    (measurement_cov_rpy s) t (dt s)
    (computed_first_prior s) (last_control_input s)
    (last_time_secs s) (last_time_nsecs s) (calls s).

Definition set_dt (d : option R) (s : StateEstimation I) :=
  mkStateEstimation (ukf s) (measurement_cov_ir s) (measurement_cov_optical_flow s)
    (measurement_cov_rpy s) (last_state_transition_time s) d
    (computed_first_prior s) (last_control_input s)
    (last_time_secs s) (last_time_nsecs s) (calls s).

Definition set_computed_first_prior (b : bool) (s : StateEstimation I) :=
  mkStateEstimation (ukf s) (measurement_cov_ir s) (measurement_cov_optical_flow s)
    (measurement_cov_rpy s) (last_state_transition_time s) (dt s)
    b (last_control_input s)
    (last_time_secs s) (last_time_nsecs s) (calls s).

Definition set_last_control_input (u : np.vector) (s : StateEstimation I) :=
  mkStateEstimation (ukf s) (measurement_cov_ir s) (measurement_cov_optical_flow s)
    (measurement_cov_rpy s) (last_state_transition_time s) (dt s)
    (computed_first_prior s) u
    (last_time_secs s) (last_time_nsecs s) (calls s).

Definition set_last_time (t : Time) (s : StateEstimation I) :=
  mkStateEstimation (ukf s) (measurement_cov_ir s) (measurement_cov_optical_flow s)
    (measurement_cov_rpy s) (last_state_transition_time s) (dt s)
    (computed_first_prior s) (last_control_input s)
    (Some (secs t)) (Some (nsecs t)) (calls s).

Definition log_call (c : call) (s : StateEstimation I) :=
  mkStateEstimation (ukf s) (measurement_cov_ir s) (measurement_cov_optical_flow s)
    (measurement_cov_rpy s) (last_state_transition_time s) (dt s)
    (computed_first_prior s) (last_control_input s)
    (last_time_secs s) (last_time_nsecs s) (calls s ++ [c]).

End Setters.

Section Scheduler.
Context {I : Type}.
Variable lib : FilterLib I.
(** [tf.transformations.euler_from_quaternion([x, y, z, w])] *)
Variable euler_from_quaternion : R -> R -> R -> R -> R * R * R.

Local Open Scope method_scope.

(** [self.state_transition_function] as the filter holds it: a bound
    method that reads the mean of whatever filter object it is run on. *)
Definition fx (k : UKF I) (x : np.vector) (dt : R) (u : np.vector)
  : result np.vector :=
  state_transition_function (ukf_x k) x dt u.

(** [self.ukf.predict(dt=dt, u=u)] *)
Definition call_predict (d : option R) (u : np.vector) : M I unit :=
  fun self =>
    let self := log_call (Predict d u) self in
    let (r, k) := lib_predict lib fx d u (ukf self) in
    (r, set_ukf k self).

(** [self.ukf.update(z, hx=hx, R=R)] *)
Definition call_update (z : np.vector) (hx : np.vector -> result np.vector)
    (Rcov : ndarray) : M I unit :=
  fun self =>
    let self := log_call (Update z hx Rcov) self in
    let (r, k) := lib_update lib z hx Rcov (ukf self) in
    (r, set_ukf k self).

(** [__init__], after [initialize_ukf] and [initialize_ukf_matrices];
    FilterPy starts the mean at zero. *)
Definition init : StateEstimation I :=
  {| ukf := {| ukf_x := repeat 0 12;
               ukf_P := np.diag [0.1; 0.1; 0.1; 0.2; 0.2; 0.2; 1; 1; 1; 1; 1; 1];
               ukf_Q := map (map (fun v => v * 0.001)) (np.eye 12);
               ukf_priv := lib_new lib |};
     measurement_cov_ir := Arr1 [0.1];
     measurement_cov_optical_flow := Arr2 (np.diag [0.1; 0.1; 0.1]);
     measurement_cov_rpy := Arr2 (np.diag [0.1; 0.1; 0.1]);
     last_state_transition_time := None;
     dt := None;
     computed_first_prior := false;
     last_control_input := [0; 0; 0];
     last_time_secs := None;
     last_time_nsecs := None;
     calls := [] |}.

Definition update_input_time {Msg} `{Stamped Msg} (msg : Msg) : M I unit :=
  modify (set_last_time (stamp msg)) ;;
  let new_time := to_seconds (stamp msg) in
  self <- get ;;
  match last_state_transition_time self with
  | None => raise TypeError            (* float - None *)
  | Some last =>
      modify (set_dt (Some (new_time - last))) ;;
      modify (set_last_state_transition_time (Some new_time))
  end.

Definition ukf_predict : M I unit :=
  self <- get ;;
  call_predict (dt self) (last_control_input self) ;;
  modify (set_computed_first_prior true).

Definition imu_data_callback (data : Imu) : M I unit :=
  update_input_time data ;;
  modify (set_last_control_input
            [ v_x (linear_acceleration data);
              v_y (linear_acceleration data);
              v_z (linear_acceleration data) ]) ;;
  ukf_predict ;;
  let euler_angles :=
    euler_from_quaternion (q_x (orientation data)) (q_y (orientation data))
                          (q_z (orientation data)) (q_w (orientation data)) in
  let roll := fst (fst euler_angles) in
  let pitch := snd (fst euler_angles) in
  let yaw := snd euler_angles in
  let measurement_z := [roll; pitch; yaw] in
  self <- get ;;
  call_update measurement_z measurement_function_rpy (measurement_cov_rpy self).

Definition optical_flow_data_callback (data : Mode) : M I unit :=
  update_input_time data ;;
  ukf_predict ;;
  let measurement_z := [x_velocity data; y_velocity data; yaw_velocity data] in
  self <- get ;;
  call_update measurement_z measurement_function_optical_flow
              (measurement_cov_optical_flow self).

Definition ir_data_callback (data : Range) : M I unit :=
  update_input_time data ;;
  ukf_predict ;;
  let measurement_z := [range data] in
  self <- get ;;
  call_update measurement_z measurement_function_ir (measurement_cov_ir self).

End Scheduler.

(** ** Delivery of sensor readings

    [initialize_ros] subscribes one callback per topic; a reading is
    handled by the callback of its topic. *)

Inductive arrival : Type :=
| ImuArrival (data : Imu)             (* /pidrone/imu *)
| OpticalFlowArrival (data : Mode)    (* /pidrone/set_mode_vel *)
| IrArrival (data : Range).           (* /pidrone/infrared *)

#[export] Instance arrival_Stamped : Stamped arrival :=
  fun a =>
    match a with
    | ImuArrival data => stamp data
    | OpticalFlowArrival data => stamp data
    | IrArrival data => stamp data
    end.

Section Delivery.
Context {I : Type}.
Variable lib : FilterLib I.
Variable euler_from_quaternion : R -> R -> R -> R -> R * R * R.

Definition deliver (a : arrival) : M I unit :=
  match a with
  | ImuArrival data => imu_data_callback lib euler_from_quaternion data
  | OpticalFlowArrival data => optical_flow_data_callback lib data
  | IrArrival data => ir_data_callback lib data
  end.

(** The object after a sequence of readings; rospy logs an exception
    raised by a callback and goes on with the next message. *)
Fixpoint spin (arrivals : list arrival) (self : StateEstimation I)
  : StateEstimation I :=
  match arrivals with
  | [] => self
  | a :: rest => spin rest (snd (deliver a self))
  end.

(** The control input the prediction for an arrival is run with. *)
Definition control_input_for (a : arrival) (self : StateEstimation I) : np.vector :=
  match a with
  | ImuArrival data =>
      [ v_x (linear_acceleration data);
        v_y (linear_acceleration data);
        v_z (linear_acceleration data) ]
  | _ => last_control_input self
  end.

End Delivery.

(** ** The outcome of one delivery, case by case

    What a callback hands to [update], and the three ways a delivery can
    end: no previous timestamp, predict raised, or predict returned and
    update was run.  [deliver_outcome] below shows the callbacks end in
    exactly these ways. *)

Section Outcome.
Context {I : Type}.
Variable lib : FilterLib I.
Variable euler_from_quaternion : R -> R -> R -> R -> R * R * R.

Definition measurement_for (a : arrival) : np.vector :=
  match a with
  | ImuArrival data =>
      let e := euler_from_quaternion
                 (q_x (orientation data)) (q_y (orientation data))
                 (q_z (orientation data)) (q_w (orientation data)) in
      [fst (fst e); snd (fst e); snd e]
  | OpticalFlowArrival data =>
      [x_velocity data; y_velocity data; yaw_velocity data]
  | IrArrival data => [range data]
  end.

Definition hx_for (a : arrival) : np.vector -> result np.vector :=
  match a with
  | ImuArrival _ => measurement_function_rpy
  | OpticalFlowArrival _ => measurement_function_optical_flow
  | IrArrival _ => measurement_function_ir
  end.

Definition cov_for (a : arrival) (self : StateEstimation I) : ndarray :=
  match a with
  | ImuArrival _ => measurement_cov_rpy self
  | OpticalFlowArrival _ => measurement_cov_optical_flow self
  | IrArrival _ => measurement_cov_ir self
  end.

(** The object when [ukf_predict] is entered: both time fields, [dt] and
    the control input are already assigned. *)
Definition before_predict (a : arrival) (last : R) (self : StateEstimation I)
  : StateEstimation I :=
  set_last_control_input (control_input_for a self)
    (set_last_state_transition_time (Some (to_seconds (stamp a)))
       (set_dt (Some (to_seconds (stamp a) - last))
          (set_last_time (stamp a) self))).

Inductive delivered (a : arrival) (self : StateEstimation I)
  : result unit * StateEstimation I -> Prop :=
| first_reading :
    last_state_transition_time self = None ->
    delivered a self (Raise TypeError, set_last_time (stamp a) self)
| predict_raised (last : R) (e : exn) (k : UKF I) :
    last_state_transition_time self = Some last ->
    let d := Some (to_seconds (stamp a) - last) in
    let u := control_input_for a self in
    lib_predict lib (fx (I := I)) d u (ukf self) = (Raise e, k) ->
    delivered a self
      (Raise e, set_ukf k (log_call (Predict d u) (before_predict a last self)))
| predicted_then_updated (last : R) (k k' : UKF I) (r : result unit) :
    last_state_transition_time self = Some last ->
    let d := Some (to_seconds (stamp a) - last) in
    let u := control_input_for a self in
    let z := measurement_for a in
    lib_predict lib (fx (I := I)) d u (ukf self) = (Ok tt, k) ->
    lib_update lib z (hx_for a) (cov_for a self) k = (r, k') ->
    delivered a self
      (r, set_ukf k'
            (log_call (Update z (hx_for a) (cov_for a self))
               (set_computed_first_prior true
                  (set_ukf k
                     (log_call (Predict d u) (before_predict a last self)))))).

End Outcome.

(** ** Two stand-ins for the filter library

    They serve to run the callbacks on concrete inputs; neither is
    FilterPy, and every theorem about the scheduler is stated for an
    arbitrary [FilterLib]. *)

(** Predict moves the mean through the process model, as a sigma-point
    filter does with its central point, and keeps the covariance; with no
    [dt] given it uses the [dt=1.0] the filter was constructed with.
    Update accepts the measurement and changes nothing. *)
Definition central_filter : FilterLib unit :=
  {| lib_new := tt;
     lib_predict := fun f d u k =>
       let h := match d with Some h => h | None => 1 end in
       match f k (ukf_x k) h u with
       | Ok x' => (Ok tt, mkUKF x' (ukf_P k) (ukf_Q k) (ukf_priv k))
       | Raise e => (Raise e, k)
       end;
     lib_update := fun z hx Rcov k => (Ok tt, k) |}.

(** Predict fails in the matrix decomposition ("leading minor not positive
    definite", the LinAlgError that [initialize_ukf_matrices] warns of)
    before it has changed anything. *)
Definition failing_filter : FilterLib unit :=
  {| lib_new := tt;
     lib_predict := fun f d u k => (Raise LinAlgError, k);
     lib_update := fun z hx Rcov k => (Ok tt, k) |}.

(** The Euler angles of the identity quaternion are zero; the stand-in
    conversion returns them for every quaternion. *)
Definition level_attitude (qx qy qz qw : R) : R * R * R := (0, 0, 0).

(** An object that has a previous fusion time [t] and a mean [x]. *)
Definition running_at (t : R) (x : np.vector) (lib : FilterLib unit)
  : StateEstimation unit :=
  set_last_state_transition_time (Some t)
    (set_ukf (mkUKF x (ukf_P (ukf (init lib))) (ukf_Q (ukf (init lib))) tt)
       (init lib)).

(** ** The combined observation model: [measurement_function]

    The default [hx] handed to the filter's constructor; no callback
    passes it to [update]. *)

Definition measurement_function (x : np.vector) : result np.vector :=
  (roll_deg <-? np.item x 6 ;
   pitch_deg <-? np.item x 7 ;
   let phi := np.deg2rad roll_deg in
   let theta := np.deg2rad pitch_deg in
   let alt_to_r := 1 / (cos theta * cos phi) in
   let H := [ [0; 0; 0; 1; 0; 0; 0; 0; 0; 0; 0; 0];
              [0; 0; 0; 0; 1; 0; 0; 0; 0; 0; 0; 0];
              [0; 0; 0; 0; 0; 0; 0; 0; 0; 0; 0; 1];
              [0; 0; alt_to_r; 0; 0; 0; 0; 0; 0; 0; 0; 0];
              [0; 0; 0; 0; 0; 0; 1; 0; 0; 0; 0; 0];
              [0; 0; 0; 0; 0; 0; 0; 1; 0; 0; 0; 0];
              [0; 0; 0; 0; 0; 0; 0; 0; 1; 0; 0; 0] ] in
   np.dot H x)%result.

(** ** Time handed to the filter

    The sum of the time steps of the predict calls in a log. *)

Fixpoint predicted_time (log : list call) : R :=
  match log with
  | [] => 0
  | Predict (Some d) _ :: rest => d + predicted_time rest
  | _ :: rest => predicted_time rest
  end.

(** * Optical flow from motion vectors: scripts/picam_flow.py

    The [AnalyzeFlow] class.  The camera's motion arrays hold signed bytes
    and are read as integers; the filters are float arrays.  Frame sizes
    are natural numbers.  The wall clock ([time.time()]) is an input of
    the methods that read it. *)

Module picam_flow.

(** What [get_z_filter] ends in: its assert on the frame size may fail. *)
Inductive asserted (A : Type) : Type :=
| Passed (a : A)
| AssertionError.

Arguments Passed {A} a.
Arguments AssertionError {A}.

(** [np.zeros((rows, cols))] *)
Definition zeros (rows cols : nat) : np.matrix := repeat (repeat 0 cols) rows.

(** [np.sum] of a 1-D and of a 2-D array. *)
Definition sum1 (row : np.vector) : R := fold_right Rplus 0 row.
Definition sum (A : np.matrix) : R := sum1 (map sum1 A).

(** [np.linalg.norm] of a 2-D array: the Frobenius norm. *)
Definition norm (A : np.matrix) : R :=
  sqrt (sum (map (map (fun v => v * v)) A)).

(** [A /= s] and [s * A] for a scalar [s]. *)
Definition divide (A : np.matrix) (s : R) : np.matrix :=
  map (map (fun v => v / s)) A.
Definition times (s : R) (A : np.matrix) : np.matrix :=
  map (map (fun v => s * v)) A.

(** [np.multiply(A, B)] for two arrays of one shape.  [None]: the shapes
    differ; what NumPy does then (broadcast or ValueError) is not
    modelled. *)
Fixpoint multiply_row (a b : np.vector) : option np.vector :=
  match a, b with
  | [], [] => Some []
  | x :: a', y :: b' =>
      match multiply_row a' b' with
      | Some r => Some (x * y :: r)
      | None => None
      end
  | _, _ => None
  end.

Fixpoint multiply (A B : np.matrix) : option np.matrix :=
  match A, B with
  | [], [] => Some []
  | a :: A', b :: B' =>
      match multiply_row a b, multiply A' B' with
      | Some r, Some R' => Some (r :: R')
      | _, _ => None
      end
  | _, _ => None
  end.

(** The body of the inner loop of [get_z_filter], at column [i], row [j]. *)
Definition fill_cell (mid_row mid_col : R) (i : nat)
    (filters : np.matrix * np.matrix) (j : nat) : np.matrix * np.matrix :=
  let x := INR i - mid_col in
  let y := INR j - mid_row in
  (np.setitem (fst filters) j i x, np.setitem (snd filters) j i y).

(** [for i in range(num_cols): for j in range(num_rows): ...] *)
Definition fill (num_rows num_cols : nat) (mid_row mid_col : R)
    (filters : np.matrix * np.matrix) : np.matrix * np.matrix :=
  fold_left
    (fun filters i => fold_left (fill_cell mid_row mid_col i) (seq 0 num_rows) filters)
    (seq 0 num_cols) filters.

(** Returns [(z_filter_x, z_filter_y)].  Where a filter is all zero before
    the division (fewer than two block columns, or rows), NumPy divides
    zero by zero and stores NaN; the real-number division here cannot
    show that, and the properties of the divided filters are stated for
    frames with at least two block columns and rows. *)
Definition get_z_filter (width height : nat) : asserted (np.matrix * np.matrix) :=
  if (Nat.eqb (width mod 16) 0 && Nat.eqb (height mod 16) 0)%bool then
    let num_rows := (height / 16)%nat in
    let num_cols := (width / 16)%nat in
    let mid_row := (INR num_rows - 1) / 2 in
    let mid_col := (INR num_cols - 1) / 2 in
    let z_filter_x := zeros num_rows (num_cols + 1) in
    let z_filter_y := zeros num_rows (num_cols + 1) in
    let filled := fill num_rows num_cols mid_row mid_col (z_filter_x, z_filter_y) in
    Passed (divide (fst filled) (norm (fst filled)),
            divide (snd filled) (norm (snd filled)))
  else AssertionError.

(** Returns [(yaw_filter_x, yaw_filter_y)] from the z filters. *)
Definition get_yaw_filter (z_filter_x z_filter_y : np.matrix)
  : np.matrix * np.matrix :=
  (z_filter_y, times (-1) z_filter_x).

Record AnalyzeFlow : Type := mkAnalyzeFlow {
  z_filter_x : np.matrix;
  z_filter_y : np.matrix;
  yaw_filter_x : np.matrix;
  yaw_filter_y : np.matrix;
  ang_vx : R;
  ang_vy : R;
  prev_time : R
}.

(** [setup(camera_wh)]; [now] is the clock reading it stores. *)
Definition setup (camera_wh : nat * nat) (now : R) : asserted AnalyzeFlow :=
  match get_z_filter (fst camera_wh) (snd camera_wh) with
  | Passed (zx, zy) =>
      let (yx, yy) := get_yaw_filter zx zy in
      Passed (mkAnalyzeFlow zx zy yx yy 0 0 now)
  | AssertionError => AssertionError
  end.

Definition set_angular_velocity (vx vy : R) (self : AnalyzeFlow) : AnalyzeFlow :=
  mkAnalyzeFlow (z_filter_x self) (z_filter_y self)
                (yaw_filter_x self) (yaw_filter_y self) vx vy (prev_time self).

(** The motion data of one frame: [a['x']], [a['y']], [a['sad']]. *)
Record MotionData : Type := mkMotionData {
  motion_x : list (list Z);
  motion_y : list (list Z);
  motion_sad : list (list Z)
}.

Definition as_float (A : list (list Z)) : np.matrix := map (map IZR) A.

(** The four motions [analyse] prints. *)
Record Motions : Type := mkMotions {
  x_motion : R;
  y_motion : R;
  z_motion : R;
  yaw_motion : R
}.

(** [analyse(a)], with the clock reading [curr_time]; the printed running
    time of the method is left out.  The object is returned with
    [prev_time] replaced, which happens before the filters are applied. *)
Definition analyse (a : MotionData) (curr_time : R) (self : AnalyzeFlow)
  : option Motions * AnalyzeFlow :=
  let x := as_float (motion_x a) in
  let y := as_float (motion_y a) in
  let ang_coefficient := 45000 in
  let diff_time := curr_time - prev_time self in
  let self' := mkAnalyzeFlow (z_filter_x self) (z_filter_y self)
                 (yaw_filter_x self) (yaw_filter_y self)
                 (ang_vx self) (ang_vy self) curr_time in
  let xm := sum x + atan (ang_vx self * diff_time) * ang_coefficient in
  let ym := sum y + atan (ang_vy self * diff_time) * ang_coefficient in
  match multiply x (z_filter_x self), multiply y (z_filter_y self),
        multiply x (yaw_filter_x self), multiply y (yaw_filter_y self) with
  | Some xz, Some yz, Some xw, Some yw =>
      (Some (mkMotions xm ym (sum xz + sum yz) (sum xw + sum yw)), self')
  | _, _, _, _ => (None, self')
  end.

End picam_flow.

(** ** Arrays by their entries

    [entry A j i] is [A[j, i]]; [tabulate rows cols f] is the array whose
    entry at row [j], column [i] is [f j i]. *)

Definition entry (A : np.matrix) (j i : nat) : R := nth i (nth j A []) 0.

Definition tabulate (rows cols : nat) (f : nat -> nat -> R) : np.matrix :=
  map (fun j => map (f j) (seq 0 cols)) (seq 0 rows).

Definition rectangular (rows cols : nat) (A : np.matrix) : Prop :=
  length A = rows /\ Forall (fun row => length row = cols) A.

(** Every row ends in a zero after [nc] other entries. *)
Definition zero_buffer (nc : nat) (F : np.matrix) : Prop :=
  Forall (fun row => exists w, row = w ++ [0] /\ length w = nc) F.

(** Every row holds [c] in its first [nc] entries and anything in the
    one after. *)
Definition uniform_flow (nc : nat) (c : Z) (X : list (list Z)) : Prop :=
  Forall (fun row => exists b, row = repeat c nc ++ [b]) X.

(** * Properties *)

(** ** Geometric transform *)

Lemma deg2rad_0 : np.deg2rad 0 = 0.
Proof. unfold np.deg2rad. lra. Qed.

Lemma deg2rad_90 : np.deg2rad 90 = PI / 2.
Proof. unfold np.deg2rad. lra. Qed.

(** Unfolds a product of small literal arrays down to sums of products. *)
Ltac array_eval :=
  cbv [apply_rotation_matrix rotate_to_global_spec rotation_zyx rotation_matrix
       rotation_x rotation_y rotation_z
       state_transition_function transition_matrix
       measurement_function_ir measurement_function_optical_flow
       measurement_function_rpy
       np.item np.dot np.add np.scale np.inner np.matmul np.column
       np.eye np.eye_row np.setitem np.set_nth
       bind_result nth_error nth hd forallb map seq length Nat.eqb andb].

Lemma cons_eq {A} (a b : A) (l l' : list A) :
  a = b -> l = l' -> a :: l = b :: l'.
Proof. intros -> ->. reflexivity. Qed.

(** Closes [Ok l = Ok l'] for literal lists, entry by entry. *)
Ltac entrywise :=
  apply (f_equal Ok);
  repeat (apply cons_eq; [ first [ reflexivity | ring | unfold Rdiv; ring ] | ]);
  try reflexivity.

(** The matrix the code builds acts like Rz(yaw).Ry(pitch).Rx(roll) on the
    x and z components of every vector, for every attitude. *)
Lemma rotation_rows_0_2 (mean : np.vector) (roll pitch yaw u0 u1 u2 : R) :
  nth_error mean 6 = Some roll ->
  nth_error mean 7 = Some pitch ->
  nth_error mean 8 = Some yaw ->
  exists a0 a1 a2 b1,
    apply_rotation_matrix mean [u0; u1; u2] = Ok [a0; a1; a2] /\
    rotate_to_global_spec [u0; u1; u2] roll pitch yaw = Ok [a0; b1; a2].
Proof.
  intros H6 H7 H8.
  unfold apply_rotation_matrix, np.item. rewrite H6, H7, H8.
  array_eval.
  do 4 eexists. split; [ reflexivity | ].
  entrywise.
Qed.

(** C1 (fails on the code): the body-to-global rotation should be
    rotation_z(yaw) . rotation_y(pitch) . rotation_x(roll).  Entry (1,2) of
    the matrix in [apply_rotation_matrix] repeats entry (2,1).  With a
    stored attitude of 90 degrees roll and no pitch or yaw, the body vector
    (0,0,1) is sent to (0,1,0), where the composition sends it to (0,-1,0). *)
Theorem C1_rotation_entry_1_2 :
  let mean := [0; 0; 0; 0; 0; 0; 90; 0; 0; 0; 0; 0] in
  apply_rotation_matrix mean [0; 0; 1] = Ok [0; 1; 0] /\
  rotate_to_global_spec [0; 0; 1] 90 0 0 = Ok [0; -1; 0] /\
  apply_rotation_matrix mean [0; 0; 1] <> rotate_to_global_spec [0; 0; 1] 90 0 0.
Proof.
  assert (E1 : apply_rotation_matrix [0; 0; 0; 0; 0; 0; 90; 0; 0; 0; 0; 0] [0; 0; 1]
               = Ok [0; 1; 0]).
  { array_eval. rewrite deg2rad_90, deg2rad_0, sin_PI2, cos_PI2, sin_0, cos_0.
    entrywise. }
  assert (E2 : rotate_to_global_spec [0; 0; 1] 90 0 0 = Ok [0; -1; 0]).
  { array_eval. rewrite deg2rad_90, deg2rad_0, sin_PI2, cos_PI2, sin_0, cos_0.
    entrywise. }
  cbv zeta. split; [ exact E1 | split; [ exact E2 | ] ].
  rewrite E1, E2. intros H. injection H as H. lra.
Qed.

(** ** Process model and observation models *)

(** Turns [length l = n] for a literal [n] into the list of its entries. *)
Ltac by_length :=
  repeat match goal with
    | H : length ?l = S _ |- _ =>
        destruct l as [ | ? l ];
        [ discriminate H | simpl in H; apply Nat.succ_inj in H ]
    | H : length ?l = O |- _ =>
        destruct l; [ clear H | discriminate H ]
    end.

Lemma apply_rotation_matrix_total (mean u : np.vector) :
  length mean = 12%nat -> length u = 3%nat ->
  exists a0 a1 a2, apply_rotation_matrix mean u = Ok [a0; a1; a2].
Proof.
  intros Hm Hu. by_length. array_eval. do 3 eexists. reflexivity.
Qed.

Section ProcessModel.
(** The filter's stored mean, a state to propagate, a time step. *)
Variables m0 m1 m2 m3 m4 m5 m6 m7 m8 m9 m10 m11 : R.
Variables x0 x1 x2 x3 x4 x5 x6 x7 x8 x9 x10 x11 : R.
Variable h : R.

Let mean : np.vector := [m0; m1; m2; m3; m4; m5; m6; m7; m8; m9; m10; m11].
Let x : np.vector := [x0; x1; x2; x3; x4; x5; x6; x7; x8; x9; x10; x11].

(** The state transition advances position by velocity x dt and
    orientation by angular velocity x dt, displaces linear velocity by
    what [apply_rotation_matrix] makes of the control input, scaled by
    dt, and returns the same orientation and angular-velocity components
    whatever the control input is. *)
Lemma state_transition_formula (u0 u1 u2 : R) :
  exists a0 a1 a2,
    apply_rotation_matrix mean [u0; u1; u2] = Ok [a0; a1; a2] /\
    state_transition_function mean x h [u0; u1; u2] =
      Ok [ x0 + x3 * h; x1 + x4 * h; x2 + x5 * h;
           x3 + a0 * h; x4 + a1 * h; x5 + a2 * h;
           x6 + x9 * h; x7 + x10 * h; x8 + x11 * h;
           x9; x10; x11 ] /\
    forall u0' u1' u2' : R,
      (y <-? state_transition_function mean x h [u0'; u1'; u2'] ;
       Ok (skipn 6 y))%result =
      Ok [ x6 + x9 * h; x7 + x10 * h; x8 + x11 * h; x9; x10; x11 ].
Proof.
  do 3 eexists. split; [ | split ].
  - subst mean. array_eval. reflexivity.
  - subst mean x. array_eval. entrywise.
  - intros. subst mean x. array_eval. cbv [skipn]. entrywise.
Qed.

(** C7: the control input is rotated with the attitude of the filter's
    stored mean (entries 6 to 8 of [self.ukf.x]); the velocity
    displacement is one and the same for every state propagated under
    that mean, whatever the state's own orientation entries. *)
Theorem C7_displacement_from_stored_mean (u0 u1 u2 : R) :
  exists a0 a1 a2,
    np.dot (rotation_matrix (np.deg2rad m6) (np.deg2rad m7) (np.deg2rad m8))
           [u0; u1; u2] = Ok [a0; a1; a2] /\
    forall s0 s1 s2 s3 s4 s5 s6 s7 s8 s9 s10 s11 : R,
      state_transition_function mean
        [s0; s1; s2; s3; s4; s5; s6; s7; s8; s9; s10; s11] h [u0; u1; u2] =
      Ok [ s0 + s3 * h; s1 + s4 * h; s2 + s5 * h;
           s3 + a0 * h; s4 + a1 * h; s5 + a2 * h;
           s6 + s9 * h; s7 + s10 * h; s8 + s11 * h;
           s9; s10; s11 ].
Proof.
  do 3 eexists. split.
  - array_eval. reflexivity.
  - intros. subst mean. array_eval. entrywise.
Qed.

(** C6: the orientation model selects entries 6, 7, 8; the optical-flow
    model selects entries 3, 4, 11; the slant-range model returns entry 2
    divided by cos(pitch) * cos(roll), with roll and pitch taken from the
    very state it is called on (the function has no other input). *)
Theorem C6_observation_models :
  measurement_function_rpy x = Ok [x6; x7; x8] /\
  measurement_function_optical_flow x = Ok [x3; x4; x11] /\
  measurement_function_ir x =
    Ok [ x2 / (cos (np.deg2rad x7) * cos (np.deg2rad x6)) ].
Proof.
  subst x. repeat split; array_eval; entrywise.
Qed.

End ProcessModel.

(** C5 (fails on the code): the linear velocity should be displaced by
    the control input rotated into the global frame and scaled by dt.
    Position and orientation advance as claimed, and orientation and
    angular velocity do not depend on the control input, but the velocity
    displacement goes through [apply_rotation_matrix] and inherits its
    faulty entry (1,2): with a stored roll of 90 degrees and the body
    vector (0,0,1) as control input, the y velocity of every state gains
    +dt, where the rotation rotation_z . rotation_y . rotation_x of that
    vector, (0,-1,0), would take dt away from it. *)
Theorem C5_velocity_displacement_at_roll_90
    (x0 x1 x2 x3 x4 x5 x6 x7 x8 x9 x10 x11 h : R) :
  let mean := [0; 0; 0; 0; 0; 0; 90; 0; 0; 0; 0; 0] in
  state_transition_function mean
    [x0; x1; x2; x3; x4; x5; x6; x7; x8; x9; x10; x11] h [0; 0; 1] =
    Ok [ x0 + x3 * h; x1 + x4 * h; x2 + x5 * h;
         x3; x4 + h; x5;
         x6 + x9 * h; x7 + x10 * h; x8 + x11 * h;
         x9; x10; x11 ] /\
  rotate_to_global_spec [0; 0; 1] 90 0 0 = Ok [0; -1; 0].
Proof.
  cbv zeta. split.
  - array_eval. rewrite deg2rad_90, deg2rad_0, sin_PI2, cos_PI2, sin_0, cos_0.
    entrywise.
  - array_eval. rewrite deg2rad_90, deg2rad_0, sin_PI2, cos_PI2, sin_0, cos_0.
    entrywise.
Qed.

Lemma transition_at_zero (mean x u : np.vector) :
  length mean = 12%nat -> length x = 12%nat -> length u = 3%nat ->
  state_transition_function mean x 0 u = Ok x.
Proof.
  intros Hm Hx Hu. by_length. array_eval. entrywise.
Qed.

(** C8: with dt = 0 the state transition returns the state it was given,
    for every stored mean and every control input. *)
Theorem C8_zero_dt_identity (mean x u : np.vector) :
  length mean = 12%nat -> length x = 12%nat -> length u = 3%nat ->
  state_transition_function mean x 0 u = Ok x.
Proof.
  intros Hm Hx Hu. by_length. array_eval. entrywise.
Qed.

Lemma C8_zero_dt_identity_witness :
  state_transition_function
    [0; 0; 0; 2; 0; 0; 30; 0; 0; 0; 0; 0]
    [1; 2; 3; 4; 5; 6; 7; 8; 9; 10; 11; 12] 0 [0; 0; 9.8] =
  Ok [1; 2; 3; 4; 5; 6; 7; 8; 9; 10; 11; 12].
Proof.
  apply C8_zero_dt_identity; reflexivity.
Defined.

(** At dt = 0 every sigma point handed to the process model comes back
    unchanged, so the filter recombines the points it started from. *)
Corollary zero_dt_sigma_points (mean u : np.vector) (sigmas : list np.vector) :
  length mean = 12%nat -> length u = 3%nat ->
  Forall (fun s => length s = 12%nat) sigmas ->
  map (fun s => state_transition_function mean s 0 u) sigmas = map Ok sigmas.
Proof.
  intros Hm Hu Hs. induction Hs as [ | s sigmas Hlen _ IH ]; simpl.
  - reflexivity.
  - rewrite IH. f_equal. apply transition_at_zero; assumption.
Qed.

(** ** Scheduler *)

(** Runs the callbacks down to the calls into the filter library. *)
Ltac run_callbacks :=
  simpl in *;
  cbv [deliver imu_data_callback optical_flow_data_callback ir_data_callback
       update_input_time ukf_predict call_predict call_update
       bind modify get raise
       stamp arrival_Stamped Imu_Stamped Mode_Stamped Range_Stamped] in *;
  simpl in *; subst; simpl in *.

Section SchedulerFacts.
Context {I : Type}.
Variable lib : FilterLib I.
Variable euler_from_quaternion : R -> R -> R -> R -> R * R * R.

(** Every delivery ends in one of the three ways of [delivered]. *)
Lemma deliver_outcome (a : arrival) (self : StateEstimation I) :
  delivered lib euler_from_quaternion a self
    (deliver lib euler_from_quaternion a self).
Proof.
  destruct (last_state_transition_time self) as [ last | ] eqn:Hlast.
  - destruct (lib_predict lib fx (Some (to_seconds (stamp a) - last))
                (control_input_for a self) (ukf self))
      as [ [ [] | e ] k ] eqn:Hp.
    + destruct (lib_update lib (measurement_for euler_from_quaternion a)
                  (hx_for a) (cov_for a self) k) as [ r k' ] eqn:Hu.
      pose proof (predicted_then_updated lib euler_from_quaternion a self
                    last k k' r Hlast Hp Hu) as D.
      destruct a, self; run_callbacks; rewrite Hp; simpl; rewrite Hu; exact D.
    + pose proof (predict_raised lib euler_from_quaternion a self
                    last e k Hlast Hp) as D.
      destruct a, self; run_callbacks; rewrite Hp; exact D.
  - pose proof (first_reading lib euler_from_quaternion a self Hlast) as D.
    destruct a, self; run_callbacks; exact D.
Qed.

(** A delivery to an object without a previous timestamp raises and
    leaves everything but the two raw time fields as it was. *)
Lemma deliver_without_timestamp (a : arrival) (self : StateEstimation I) :
  last_state_transition_time self = None ->
  deliver lib euler_from_quaternion a self =
    (Raise TypeError, set_last_time (stamp a) self).
Proof.
  intros Hlast. pose proof (deliver_outcome a self) as D.
  inversion D as [ _ E | last e k Hl | last k k' r Hl ];
    [ reflexivity | congruence | congruence ].
Qed.

(** C2 (fails on the code): the first reading should be recorded and
    skipped without an error.  [update_input_time] subtracts the unset
    [last_state_transition_time] from the new time: the callback raises
    TypeError before the timestamp is stored.  No predict or update is
    issued and the filter is untouched, but the fusion timestamp stays
    unset. *)
Theorem C2_first_arrival_raises (a : arrival) :
  let out := deliver lib euler_from_quaternion a (init lib) in
  fst out = Raise TypeError /\
  last_state_transition_time (snd out) = None /\
  calls (snd out) = [] /\
  ukf (snd out) = ukf (init lib).
Proof.
  cbv zeta. rewrite deliver_without_timestamp by reflexivity.
  repeat split.
Qed.

(** As the timestamp stays unset, every later reading ends the same way:
    however many readings arrive, the filter is never called. *)
Lemma spin_never_reaches_filter (arrivals : list arrival) :
  let self := spin lib euler_from_quaternion arrivals (init lib) in
  last_state_transition_time self = None /\
  calls self = [] /\
  ukf self = ukf (init lib).
Proof.
  cbv zeta.
  assert (G : forall s : StateEstimation I,
             last_state_transition_time s = None ->
             last_state_transition_time (spin lib euler_from_quaternion arrivals s) = None /\
             calls (spin lib euler_from_quaternion arrivals s) = calls s /\
             ukf (spin lib euler_from_quaternion arrivals s) = ukf s).
  { induction arrivals as [ | a rest IH ]; intros s Hs; simpl.
    - repeat split; assumption.
    - rewrite deliver_without_timestamp by assumption. simpl.
      destruct (IH (set_last_time (stamp a) s) Hs) as (H1 & H2 & H3).
      repeat split; assumption. }
  apply (G (init lib)). reflexivity.
Qed.

(** What a delivery does to the time fields and to the call log once a
    previous timestamp exists. *)
Lemma deliver_with_timestamp (a : arrival) (self : StateEstimation I) (last : R) :
  last_state_transition_time self = Some last ->
  let out := deliver lib euler_from_quaternion a self in
  let d := Some (to_seconds (stamp a) - last) in
  dt (snd out) = d /\
  last_state_transition_time (snd out) = Some (to_seconds (stamp a)) /\
  exists rest,
    calls (snd out) = calls self ++ Predict d (control_input_for a self) :: rest.
Proof.
  intros Hlast. cbv zeta. pose proof (deliver_outcome a self) as D.
  inversion D as [ Hl E | last' e k Hl d u Hp E | last' k k' r Hl d u z Hp Hu E ];
    try congruence;
    assert (last' = last) by congruence; subst last'; subst d u; simpl.
  - repeat split. exists []. reflexivity.
  - repeat split. eexists. rewrite <- app_assoc. reflexivity.
Qed.

(** C3 (as the code has it): no validation of dt takes place.  Once a
    previous timestamp exists, the callback stores
    dt = new time - previous time, whatever its sign, and calls predict
    with that dt and the control input of the arrival on the stored
    filter.  Nothing is rejected: the filter after the callback is the
    one predict returned, passed through update when predict returned
    normally, and an exception of either ends the callback. *)
Theorem C3_predict_called_with_computed_dt
    (a : arrival) (self : StateEstimation I) (last : R) :
  last_state_transition_time self = Some last ->
  let out := deliver lib euler_from_quaternion a self in
  let d := Some (to_seconds (stamp a) - last) in
  let u := control_input_for a self in
  let predicted := lib_predict lib (fx (I := I)) d u (ukf self) in
  dt (snd out) = d /\
  (exists rest, calls (snd out) = calls self ++ Predict d u :: rest) /\
  match fst predicted with
  | Ok _ =>
      (fst out, ukf (snd out)) =
        lib_update lib (measurement_for euler_from_quaternion a) (hx_for a)
          (cov_for a self) (snd predicted)
  | Raise e =>
      fst out = Raise e /\ ukf (snd out) = snd predicted
  end.
Proof.
  intros Hlast. cbv zeta.
  destruct (deliver_with_timestamp a self last Hlast) as (Hd & _ & Hc).
  split; [ exact Hd | split; [ exact Hc | ] ].
  pose proof (deliver_outcome a self) as D.
  inversion D as [ Hl E | last' e k Hl d u Hp E | last' k k' r Hl d u z Hp Hu E ];
    try congruence;
    assert (last' = last) by congruence; subst last'; subst d u.
  - rewrite Hp. simpl. split; reflexivity.
  - subst z. rewrite Hp. simpl. symmetry. exact Hu.
Qed.

(** C10 (as the code has it): the fusion timestamp is assigned in
    [update_input_time], before predict and update are called; once a
    previous timestamp exists, the stored timestamp after the callback is
    the arrival's, whether predict and update returned or raised. *)
Theorem C10_timestamp_assigned_first
    (a : arrival) (self : StateEstimation I) (last : R) :
  last_state_transition_time self = Some last ->
  last_state_transition_time (snd (deliver lib euler_from_quaternion a self)) =
    Some (to_seconds (stamp a)).
Proof.
  intros Hlast.
  destruct (deliver_with_timestamp a self last Hlast) as (_ & Ht & _).
  exact Ht.
Qed.


(** A callback never reads [last_control_input] except to hand it to
    predict, and only the inertial callback assigns it. *)
Lemma deliver_control_input (a : arrival) (self : StateEstimation I) :
  last_control_input (snd (deliver lib euler_from_quaternion a self)) =
    match last_state_transition_time self with
    | Some _ => control_input_for a self
    | None => last_control_input self
    end.
Proof.
  pose proof (deliver_outcome a self) as D.
  inversion D as [ Hl E | last e k Hl d u Hp E | last k k' r Hl d u z Hp Hu E ];
    rewrite Hl; reflexivity.
Qed.

(** The log after a delivery: nothing new without a previous timestamp,
    otherwise a predict with the computed dt and the arrival's control
    input, followed by at most an update. *)
Lemma deliver_log (a : arrival) (self : StateEstimation I) :
  let out := deliver lib euler_from_quaternion a self in
  match last_state_transition_time self with
  | Some last =>
      exists rest,
        calls (snd out) =
          calls self ++
          Predict (Some (to_seconds (stamp a) - last)) (control_input_for a self)
            :: rest /\
        (rest = [] \/ exists z hx Rcov, rest = [Update z hx Rcov])
  | None => calls (snd out) = calls self
  end.
Proof.
  cbv zeta. pose proof (deliver_outcome a self) as D.
  inversion D as [ Hl E | last e k Hl d u Hp E | last k k' r Hl d u z Hp Hu E ];
    rewrite Hl; simpl.
  - reflexivity.
  - exists []. split; [ reflexivity | left; reflexivity ].
  - eexists. split; [ rewrite <- app_assoc; reflexivity | ].
    right. do 3 eexists. reflexivity.
Qed.

(** C9: an optical-flow or range arrival leaves the stored control input
    as it was and runs its prediction (the one predict call it makes)
    with that stored value; an inertial arrival replaces it; the object
    starts with the zero control input. *)
Theorem C9_control_input_held (self : StateEstimation I) :
  last_control_input (init lib) = [0; 0; 0] /\
  (forall data : Mode,
      let out := optical_flow_data_callback lib data self in
      last_control_input (snd out) = last_control_input self /\
      match last_state_transition_time self with
      | Some last =>
          exists rest,
            calls (snd out) =
              calls self ++
              Predict (Some (to_seconds (stamp data) - last))
                      (last_control_input self) :: rest /\
            (rest = [] \/ exists z hx Rcov, rest = [Update z hx Rcov])
      | None => calls (snd out) = calls self
      end) /\
  (forall data : Range,
      let out := ir_data_callback lib data self in
      last_control_input (snd out) = last_control_input self /\
      match last_state_transition_time self with
      | Some last =>
          exists rest,
            calls (snd out) =
              calls self ++
              Predict (Some (to_seconds (stamp data) - last))
                      (last_control_input self) :: rest /\
            (rest = [] \/ exists z hx Rcov, rest = [Update z hx Rcov])
      | None => calls (snd out) = calls self
      end) /\
  (forall data : Imu,
      let out := imu_data_callback lib euler_from_quaternion data self in
      last_control_input (snd out) =
        match last_state_transition_time self with
        | Some _ => [ v_x (linear_acceleration data);
                      v_y (linear_acceleration data);
                      v_z (linear_acceleration data) ]
        | None => last_control_input self
        end).
Proof.
  split; [ reflexivity | ].
  split; [ | split ].
  - intros data. cbv zeta. split.
    + pose proof (deliver_control_input (OpticalFlowArrival data) self) as H.
      simpl in H. rewrite H.
      destruct (last_state_transition_time self); reflexivity.
    + exact (deliver_log (OpticalFlowArrival data) self).
  - intros data. cbv zeta. split.
    + pose proof (deliver_control_input (IrArrival data) self) as H.
      simpl in H. rewrite H.
      destruct (last_state_transition_time self); reflexivity.
    + exact (deliver_log (IrArrival data) self).
  - intros data. exact (deliver_control_input (ImuArrival data) self).
Qed.



End SchedulerFacts.

(** ** The scheduler on concrete readings *)

Lemma C3_predict_called_with_computed_dt_witness :
  let self := running_at 2 [0; 0; 0; 1; 0; 0; 0; 0; 0; 0; 0; 0] central_filter in
  let a := IrArrival (mkRange (mkTime 1 0) 0.5) in
  let out := deliver central_filter level_attitude a self in
  let d := Some (to_seconds (stamp a) - 2) in
  let u := control_input_for a self in
  let predicted := lib_predict central_filter (fx (I := unit)) d u (ukf self) in
  dt (snd out) = d /\
  (exists rest, calls (snd out) = calls self ++ Predict d u :: rest) /\
  match fst predicted with
  | Ok _ =>
      (fst out, ukf (snd out)) =
        lib_update central_filter (measurement_for level_attitude a) (hx_for a)
          (cov_for a self) (snd predicted)
  | Raise e =>
      fst out = Raise e /\ ukf (snd out) = snd predicted
  end.
Proof.
  exact (C3_predict_called_with_computed_dt central_filter level_attitude
           (IrArrival (mkRange (mkTime 1 0) 0.5))
           (running_at 2 [0; 0; 0; 1; 0; 0; 0; 0; 0; 0; 0; 0] central_filter)
           2 eq_refl).
Defined.

(** One second backwards from rest at one metre per second along x. *)
Lemma transition_backwards :
  state_transition_function
    [0; 0; 0; 1; 0; 0; 0; 0; 0; 0; 0; 0]
    [0; 0; 0; 1; 0; 0; 0; 0; 0; 0; 0; 0] (-1) [0; 0; 0] =
  Ok [-1; 0; 0; 1; 0; 0; 0; 0; 0; 0; 0; 0].
Proof.
  array_eval. entrywise.
Qed.

(** Unfolds a callback run on a literal object and a stand-in filter. *)
Ltac run_concrete :=
  cbv [deliver ir_data_callback optical_flow_data_callback imu_data_callback
       update_input_time ukf_predict call_predict call_update
       bind modify get raise running_at init central_filter failing_filter fx
       set_last_state_transition_time set_ukf set_dt set_last_time
       set_last_control_input set_computed_first_prior log_call
       lib_predict lib_update lib_new
       ukf ukf_x ukf_P ukf_Q ukf_priv
       measurement_cov_ir measurement_cov_optical_flow measurement_cov_rpy
       last_state_transition_time dt computed_first_prior
       last_control_input last_time_secs last_time_nsecs calls
       fst snd app].

(** C3 (counterexample): a range reading stamped one second before the
    previous fusion time gives dt = -1.  The prediction is not rejected:
    predict is called with dt = -1, the callback returns normally, and with
    the stand-in filter the mean moves from x = 0 to x = -1. *)
Lemma C3_negative_dt_not_rejected :
  let self := running_at 2 [0; 0; 0; 1; 0; 0; 0; 0; 0; 0; 0; 0] central_filter in
  let data := mkRange (mkTime 1 0) 0.5 in
  let out := ir_data_callback central_filter data self in
  to_seconds (stamp data) - 2 = -1 /\
  fst out = Ok tt /\
  calls (snd out) =
    [ Predict (Some (to_seconds (stamp data) - 2)) [0; 0; 0];
      Update [0.5] measurement_function_ir (Arr1 [0.1]) ] /\
  ukf_x (ukf self) = [0; 0; 0; 1; 0; 0; 0; 0; 0; 0; 0; 0] /\
  ukf_x (ukf (snd out)) = [-1; 0; 0; 1; 0; 0; 0; 0; 0; 0; 0; 0].
Proof.
  cbv zeta.
  assert (Hdt : to_seconds (stamp (mkRange (mkTime 1 0) 0.5)) - 2 = -1).
  { cbv [to_seconds stamp Range_Stamped range_stamp secs nsecs]. lra. }
  split; [ exact Hdt | ].
  run_concrete. rewrite Hdt, transition_backwards.
  repeat split.
Qed.

Lemma C10_timestamp_assigned_first_witness :
  last_state_transition_time
    (snd (deliver failing_filter level_attitude
            (IrArrival (mkRange (mkTime 2 0) 0.5))
            (running_at 1 (repeat 0 12) failing_filter))) =
  Some (to_seconds (stamp (IrArrival (mkRange (mkTime 2 0) 0.5)))).
Proof.
  exact (C10_timestamp_assigned_first failing_filter level_attitude
           (IrArrival (mkRange (mkTime 2 0) 0.5))
           (running_at 1 (repeat 0 12) failing_filter) 1 eq_refl).
Defined.

(** C10 (counterexample): the previous fusion time is 1 and a range reading
    stamped 2 arrives; predict fails with LinAlgError, update is never
    reached, and the stored timestamp is 2 all the same, not the retained 1. *)
Lemma C10_timestamp_kept_after_failed_predict :
  let self := running_at 1 (repeat 0 12) failing_filter in
  let data := mkRange (mkTime 2 0) 0.5 in
  let out := ir_data_callback failing_filter data self in
  fst out = Raise LinAlgError /\
  calls (snd out) = [ Predict (Some (to_seconds (stamp data) - 1)) [0; 0; 0] ] /\
  last_state_transition_time self = Some 1 /\
  last_state_transition_time (snd out) = Some 2 /\
  last_state_transition_time (snd out) <> last_state_transition_time self.
Proof.
  cbv zeta.
  assert (Ht : to_seconds (stamp (mkRange (mkTime 2 0) 0.5)) = 2).
  { cbv [to_seconds stamp Range_Stamped range_stamp secs nsecs]. lra. }
  run_concrete. rewrite Ht.
  repeat split.
  intros H. injection H as H. lra.
Qed.


(** * Further properties of the estimator *)

(** ** Shapes *)

(** [np.dot] of a matrix whose rows all have length [n] with a vector of
    another length raises ValueError. *)
Lemma dot_shape_mismatch (row : np.vector) (rows : np.matrix) (v : np.vector) :
  length v <> length row ->
  np.dot (row :: rows) v = Raise ValueError.
Proof.
  intros Hne. unfold np.dot. simpl.
  destruct (Nat.eqb (length row) (length v)) eqn:E.
  - apply Nat.eqb_eq in E. congruence.
  - reflexivity.
Qed.

(** The combined observation model stacks the optical-flow, slant-range
    and orientation models, in that order. *)
Theorem measurement_function_stacks (x : np.vector) :
  length x = 12%nat ->
  measurement_function x =
    (a <-? measurement_function_optical_flow x ;
     b <-? measurement_function_ir x ;
     c <-? measurement_function_rpy x ;
     Ok (a ++ b ++ c))%result.
Proof.
  intros Hx. by_length. cbv [measurement_function]. array_eval.
  cbv [app]. entrywise.
Qed.

Lemma measurement_function_stacks_witness :
  measurement_function [1; 2; 3; 4; 5; 6; 7; 8; 9; 10; 11; 12] =
    (a <-? measurement_function_optical_flow [1; 2; 3; 4; 5; 6; 7; 8; 9; 10; 11; 12] ;
     b <-? measurement_function_ir [1; 2; 3; 4; 5; 6; 7; 8; 9; 10; 11; 12] ;
     c <-? measurement_function_rpy [1; 2; 3; 4; 5; 6; 7; 8; 9; 10; 11; 12] ;
     Ok (a ++ b ++ c))%result.
Proof.
  apply measurement_function_stacks. reflexivity.
Defined.

(** A state or a control input of the wrong size is refused with
    ValueError; nothing is returned for it. *)
Theorem state_transition_shape_error (mean x u : np.vector) (h : R) :
  length mean = 12%nat ->
  length u <> 3%nat \/ length x <> 12%nat ->
  state_transition_function mean x h u = Raise ValueError.
Proof.
  intros Hm Hbad.
  destruct (Nat.eq_dec (length u) 3) as [ Hu | Hu ].
  - destruct Hbad as [ Hbad | Hx ]; [ contradiction | ].
    destruct (apply_rotation_matrix_total mean u Hm Hu) as (a0 & a1 & a2 & Ha).
    unfold state_transition_function. rewrite Ha.
    cbv [bind_result np.scale map np.item nth_error].
    cbv [transition_matrix np.eye np.eye_row np.setitem np.set_nth seq map Nat.eqb].
    rewrite dot_shape_mismatch by (simpl; exact Hx).
    reflexivity.
  - by_length.
    unfold state_transition_function, apply_rotation_matrix.
    cbv [np.item nth_error bind_result rotation_matrix].
    rewrite dot_shape_mismatch by (simpl; exact Hu).
    reflexivity.
Qed.

Lemma state_transition_shape_error_witness :
  state_transition_function (repeat 0 12) [1; 2; 3] 1 [0; 0; 9.8] = Raise ValueError.
Proof.
  apply state_transition_shape_error.
  - reflexivity.
  - right. simpl. lia.
Defined.

(** ** Geometric transform, beyond the faulty entry *)

Section Attitude.
Variables m0 m1 m2 m3 m4 m5 m9 m10 m11 : R.
Variables u0 u1 u2 : R.

(** With the vehicle level (no roll, no pitch) the transform is the plane
    rotation by yaw about the vertical axis, and it is then the
    composition rotation_z . rotation_y . rotation_x. *)
Theorem level_attitude_rotates_about_z (yaw : R) :
  let mean := [m0; m1; m2; m3; m4; m5; 0; 0; yaw; m9; m10; m11] in
  let psi := np.deg2rad yaw in
  apply_rotation_matrix mean [u0; u1; u2] =
    Ok [ cos psi * u0 - sin psi * u1; sin psi * u0 + cos psi * u1; u2 ] /\
  apply_rotation_matrix mean [u0; u1; u2] =
    rotate_to_global_spec [u0; u1; u2] 0 0 yaw.
Proof.
  cbv zeta. split.
  - array_eval. rewrite deg2rad_0, sin_0, cos_0. entrywise.
  - array_eval. rewrite deg2rad_0, sin_0, cos_0. entrywise.
Qed.

(** For every attitude the transform and the composition
    rotation_z . rotation_y . rotation_x give the same x and z components;
    their y components differ by the body-z component of the vector times
    the error of entry (1,2).  On vectors with no body-z component the
    two agree. *)
Theorem rotation_discrepancy (roll pitch yaw : R) :
  let mean := [m0; m1; m2; m3; m4; m5; roll; pitch; yaw; m9; m10; m11] in
  let phi := np.deg2rad roll in
  let theta := np.deg2rad pitch in
  let psi := np.deg2rad yaw in
  exists a0 a1 a2 b1,
    apply_rotation_matrix mean [u0; u1; u2] = Ok [a0; a1; a2] /\
    rotate_to_global_spec [u0; u1; u2] roll pitch yaw = Ok [a0; b1; a2] /\
    a1 - b1 =
      (cos theta * sin phi
       - (cos phi * sin theta * sin psi - sin phi * cos psi)) * u2.
Proof.
  cbv zeta. array_eval.
  do 4 eexists. split; [ reflexivity | ]. split.
  - entrywise.
  - ring.
Qed.

End Attitude.

(** ** Chaining state transitions *)

Section Chaining.
Variables m0 m1 m2 m3 m4 m5 m6 m7 m8 m9 m10 m11 : R.
Variables x0 x1 x2 x3 x4 x5 x6 x7 x8 x9 x10 x11 : R.
Variables u0 u1 u2 : R.
Variables d1 d2 : R.

Let mean : np.vector := [m0; m1; m2; m3; m4; m5; m6; m7; m8; m9; m10; m11].
Let x : np.vector := [x0; x1; x2; x3; x4; x5; x6; x7; x8; x9; x10; x11].
Let u : np.vector := [u0; u1; u2].

(** Two transitions in a row under the same stored mean and control input
    reach the velocity, orientation and angular velocity of one transition
    over the summed time, but the position is further by
    acceleration x d1 x d2: the second step integrates the velocity the
    first step gained. *)
Theorem two_steps_versus_one :
  exists a0 a1 a2,
    apply_rotation_matrix mean u = Ok [a0; a1; a2] /\
    state_transition_function mean x (d1 + d2) u =
      Ok [ x0 + x3 * (d1 + d2); x1 + x4 * (d1 + d2); x2 + x5 * (d1 + d2);
           x3 + a0 * (d1 + d2); x4 + a1 * (d1 + d2); x5 + a2 * (d1 + d2);
           x6 + x9 * (d1 + d2); x7 + x10 * (d1 + d2); x8 + x11 * (d1 + d2);
           x9; x10; x11 ] /\
    (y <-? state_transition_function mean x d1 u ;
     state_transition_function mean y d2 u)%result =
      Ok [ x0 + x3 * (d1 + d2) + a0 * d1 * d2;
           x1 + x4 * (d1 + d2) + a1 * d1 * d2;
           x2 + x5 * (d1 + d2) + a2 * d1 * d2;
           x3 + a0 * (d1 + d2); x4 + a1 * (d1 + d2); x5 + a2 * (d1 + d2);
           x6 + x9 * (d1 + d2); x7 + x10 * (d1 + d2); x8 + x11 * (d1 + d2);
           x9; x10; x11 ].
Proof.
  do 3 eexists. split; [ | split ].
  - subst mean u. array_eval. reflexivity.
  - subst mean x u. array_eval. entrywise.
  - subst mean x u. array_eval. entrywise.
Qed.

End Chaining.

(** A transition with the zero control input followed by a second one. *)
Lemma coasting_chain (mean x : np.vector) (d1 d2 : R) :
  length mean = 12%nat -> length x = 12%nat ->
  (y <-? state_transition_function mean x d1 [0; 0; 0] ;
   state_transition_function mean y d2 [0; 0; 0])%result =
  state_transition_function mean x (d1 + d2) [0; 0; 0].
Proof.
  intros Hm Hx. by_length. array_eval. entrywise.
Qed.

(** With the zero control input, transitions compose by adding their time
    steps, and a transition by -dt undoes a transition by dt. *)
Theorem coasting_adds_time_steps (mean x : np.vector) (d1 d2 : R) :
  length mean = 12%nat -> length x = 12%nat ->
  (y <-? state_transition_function mean x d1 [0; 0; 0] ;
   state_transition_function mean y d2 [0; 0; 0])%result =
    state_transition_function mean x (d1 + d2) [0; 0; 0] /\
  (y <-? state_transition_function mean x d1 [0; 0; 0] ;
   state_transition_function mean y (- d1) [0; 0; 0])%result = Ok x.
Proof.
  intros Hm Hx. split.
  - apply coasting_chain; assumption.
  - rewrite coasting_chain by assumption.
    replace (d1 + - d1) with 0 by ring.
    apply transition_at_zero; [ assumption | assumption | reflexivity ].
Qed.

Lemma coasting_adds_time_steps_witness :
  let mean := [0; 0; 0; 0; 0; 0; 10; 20; 30; 0; 0; 0] in
  let x := [1; 2; 3; 4; 5; 6; 7; 8; 9; 10; 11; 12] in
  (y <-? state_transition_function mean x 0.5 [0; 0; 0] ;
   state_transition_function mean y 0.25 [0; 0; 0])%result =
    state_transition_function mean x (0.5 + 0.25) [0; 0; 0] /\
  (y <-? state_transition_function mean x 0.5 [0; 0; 0] ;
   state_transition_function mean y (Ropp 0.5) [0; 0; 0])%result = Ok x.
Proof.
  apply coasting_adds_time_steps; reflexivity.
Defined.

(** ** Scheduler: what the callbacks keep and what they hand on *)

Lemma predicted_time_app (l l' : list call) :
  predicted_time (l ++ l') = predicted_time l + predicted_time l'.
Proof.
  induction l as [ | c l IH ]; simpl.
  - ring.
  - destruct c as [ [ d | ] u | z hx Rc ]; rewrite IH; ring.
Qed.

Section SchedulerInvariants.
Context {I : Type}.
Variable lib : FilterLib I.
Variable euler_from_quaternion : R -> R -> R -> R -> R * R * R.

(** One delivery leaves the three measurement covariances alone, records
    the raw stamp, and can only raise the flag. *)
Lemma deliver_frame (a : arrival) (self : StateEstimation I) :
  let out := deliver lib euler_from_quaternion a self in
  measurement_cov_ir (snd out) = measurement_cov_ir self /\
  measurement_cov_optical_flow (snd out) = measurement_cov_optical_flow self /\
  measurement_cov_rpy (snd out) = measurement_cov_rpy self /\
  last_time_secs (snd out) = Some (secs (stamp a)) /\
  last_time_nsecs (snd out) = Some (nsecs (stamp a)) /\
  (computed_first_prior self = true -> computed_first_prior (snd out) = true).
Proof.
  cbv zeta. pose proof (deliver_outcome lib euler_from_quaternion a self) as D.
  inversion D as [ Hl E | last e k Hl d u Hp E | last k k' r Hl d u z Hp Hu E ];
    simpl; repeat split; auto.
Qed.

(** However many readings arrive and whatever the filter does with them,
    the measurement noise covariances stay the ones set at construction. *)
Theorem covariances_never_change (arrivals : list arrival) (self : StateEstimation I) :
  let self' := spin lib euler_from_quaternion arrivals self in
  measurement_cov_ir self' = measurement_cov_ir self /\
  measurement_cov_optical_flow self' = measurement_cov_optical_flow self /\
  measurement_cov_rpy self' = measurement_cov_rpy self.
Proof.
  cbv zeta. revert self.
  induction arrivals as [ | a rest IH ]; intros self; simpl.
  - repeat split.
  - destruct (IH (snd (deliver lib euler_from_quaternion a self))) as (H1 & H2 & H3).
    destruct (deliver_frame a self) as (F1 & F2 & F3 & _).
    rewrite H1, H2, H3, F1, F2, F3. repeat split.
Qed.

(** Once a predict has returned, [computed_first_prior] stays set: no
    callback clears it. *)
Theorem first_prior_flag_never_cleared
    (arrivals : list arrival) (self : StateEstimation I) :
  computed_first_prior self = true ->
  computed_first_prior (spin lib euler_from_quaternion arrivals self) = true.
Proof.
  revert self. induction arrivals as [ | a rest IH ]; intros self Hf; simpl.
  - exact Hf.
  - apply IH. destruct (deliver_frame a self) as (_ & _ & _ & _ & _ & F).
    exact (F Hf).
Qed.

(** The raw stamp of a reading is stored even when its callback raises:
    after a delivery [last_time_secs] and [last_time_nsecs] are those of
    the reading, on the first reading as on a failed predict. *)
Theorem raw_stamp_always_recorded (a : arrival) (self : StateEstimation I) :
  let out := deliver lib euler_from_quaternion a self in
  last_time_secs (snd out) = Some (secs (stamp a)) /\
  last_time_nsecs (snd out) = Some (nsecs (stamp a)).
Proof.
  cbv zeta. destruct (deliver_frame a self) as (_ & _ & _ & F1 & F2 & _).
  split; assumption.
Qed.

(** When predict returns, update follows on the filter predict left, with
    the measurement, observation model and noise covariance of the
    arrival's own sensor, and the callback ends as update ends. *)
Theorem update_follows_with_own_model
    (a : arrival) (self : StateEstimation I) (last : R) :
  let d := Some (to_seconds (stamp a) - last) in
  let u := control_input_for a self in
  let predicted := lib_predict lib (fx (I := I)) d u (ukf self) in
  last_state_transition_time self = Some last ->
  fst predicted = Ok tt ->
  let out := deliver lib euler_from_quaternion a self in
  exists z hx Rcov,
    calls (snd out) = calls self ++ [Predict d u; Update z hx Rcov] /\
    (fst out, ukf (snd out)) = lib_update lib z hx Rcov (snd predicted) /\
    match a with
    | ImuArrival data =>
        let e := euler_from_quaternion
                   (q_x (orientation data)) (q_y (orientation data))
                   (q_z (orientation data)) (q_w (orientation data)) in
        z = [fst (fst e); snd (fst e); snd e] /\
        hx = measurement_function_rpy /\
        Rcov = measurement_cov_rpy self
    | OpticalFlowArrival data =>
        z = [x_velocity data; y_velocity data; yaw_velocity data] /\
        hx = measurement_function_optical_flow /\
        Rcov = measurement_cov_optical_flow self
    | IrArrival data =>
        z = [range data] /\
        hx = measurement_function_ir /\
        Rcov = measurement_cov_ir self
    end.
Proof.
  cbv zeta. intros Hlast Hok.
  pose proof (deliver_outcome lib euler_from_quaternion a self) as D.
  inversion D as [ Hl E | last' e k Hl d u Hp E | last' k k' r Hl d u z Hp Hu E ];
    try congruence;
    assert (last' = last) by congruence; subst last'; subst d u.
  - rewrite Hp in Hok. discriminate Hok.
  - subst z. rewrite Hp. simpl.
    exists (measurement_for euler_from_quaternion a), (hx_for a), (cov_for a self).
    split; [ rewrite <- app_assoc; reflexivity | ].
    split; [ symmetry; exact Hu | ].
    destruct a; simpl; repeat split.
Qed.

(** Every interval between consecutive readings is handed to predict
    exactly once: over any sequence of readings, the time steps of the
    predict calls add up to the last stamp minus the fusion time the
    sequence started from, whether or not predict or update raised on the
    way. *)
Theorem predicted_time_telescopes
    (arrivals : list arrival) (self : StateEstimation I) (t0 : R) :
  last_state_transition_time self = Some t0 ->
  let self' := spin lib euler_from_quaternion arrivals self in
  let t1 := last (map (fun a => to_seconds (stamp a)) arrivals) t0 in
  last_state_transition_time self' = Some t1 /\
  predicted_time (calls self') = predicted_time (calls self) + (t1 - t0).
Proof.
  cbv zeta. revert self t0.
  induction arrivals as [ | a rest IH ]; intros self t0 Hlast.
  - simpl. split; [ exact Hlast | ring ].
  - change (spin lib euler_from_quaternion (a :: rest) self)
      with (spin lib euler_from_quaternion rest
              (snd (deliver lib euler_from_quaternion a self))).
    destruct (deliver_with_timestamp lib euler_from_quaternion a self t0 Hlast)
      as (_ & Ht & _).
    pose proof (deliver_log lib euler_from_quaternion a self) as Hlog.
    cbv zeta in Hlog. rewrite Hlast in Hlog.
    destruct Hlog as (tail & Hc & Htail).
    destruct (IH _ _ Ht) as (IH1 & IH2).
    assert (Hlast_eq :
              last (map (fun a0 => to_seconds (stamp a0)) (a :: rest)) t0 =
              last (map (fun a0 => to_seconds (stamp a0)) rest) (to_seconds (stamp a))).
    { clear. simpl. destruct rest as [ | b rest ]; [ reflexivity | ].
      simpl. revert b. induction rest as [ | c rest IHr ]; intros b; simpl.
      - reflexivity.
      - apply IHr. }
    rewrite Hlast_eq. split; [ exact IH1 | ].
    rewrite IH2, Hc, predicted_time_app.
    destruct Htail as [ -> | (z & hx & Rc & ->) ]; simpl; ring.
Qed.

(** Stamps that do not go back in time give a time step that is not
    negative: with nanoseconds in range, a reading stamped at or after the
    previous one (seconds first, then nanoseconds) leaves dt >= 0. *)
Theorem ordered_stamps_nonnegative_dt
    (a : arrival) (self : StateEstimation I) (prev : Time) :
  last_state_transition_time self = Some (to_seconds prev) ->
  (0 <= nsecs prev < 1000000000)%Z ->
  (0 <= nsecs (stamp a) < 1000000000)%Z ->
  (secs prev < secs (stamp a) \/
   (secs prev = secs (stamp a) /\ nsecs prev <= nsecs (stamp a)))%Z ->
  exists d, dt (snd (deliver lib euler_from_quaternion a self)) = Some d /\ 0 <= d.
Proof.
  intros Hlast Hp Ha Hord.
  destruct (deliver_with_timestamp lib euler_from_quaternion a self _ Hlast)
    as (Hd & _ & _).
  eexists. split; [ exact Hd | ].
  unfold to_seconds.
  destruct Hp as [Hp0 Hp1], Ha as [Ha0 Ha1].
  apply IZR_le in Hp0, Ha0. apply IZR_lt in Hp1, Ha1.
  destruct Hord as [ Hlt | [ Heq Hle ] ].
  - assert (H1 : (secs prev + 1 <= secs (stamp a))%Z) by lia.
    apply IZR_le in H1. rewrite plus_IZR in H1. lra.
  - rewrite Heq. apply IZR_le in Hle. lra.
Qed.

End SchedulerInvariants.

(** ** The invariants on concrete readings *)

Lemma first_prior_flag_never_cleared_witness :
  computed_first_prior
    (spin failing_filter level_attitude
       [ IrArrival (mkRange (mkTime 2 0) 0.5);
         OpticalFlowArrival (mkMode (mkTime 3 0) 0 0 0) ]
       (set_computed_first_prior true (running_at 1 (repeat 0 12) failing_filter)))
  = true.
Proof.
  apply first_prior_flag_never_cleared. reflexivity.
Defined.

Lemma central_predict_returns :
  fst (lib_predict central_filter (fx (I := unit))
         (Some (to_seconds (stamp (IrArrival (mkRange (mkTime 3 0) 0.5))) - 2))
         (control_input_for (IrArrival (mkRange (mkTime 3 0) 0.5))
            (running_at 2 (repeat 0 12) central_filter))
         (ukf (running_at 2 (repeat 0 12) central_filter))) = Ok tt.
Proof.
  run_concrete. cbv [control_input_for last_control_input repeat].
  array_eval. reflexivity.
Qed.

Lemma update_follows_with_own_model_witness :
  let a := IrArrival (mkRange (mkTime 3 0) 0.5) in
  let self := running_at 2 (repeat 0 12) central_filter in
  let d := Some (to_seconds (stamp a) - 2) in
  let u := control_input_for a self in
  let predicted := lib_predict central_filter (fx (I := unit)) d u (ukf self) in
  let out := deliver central_filter level_attitude a self in
  exists z hx Rcov,
    calls (snd out) = calls self ++ [Predict d u; Update z hx Rcov] /\
    (fst out, ukf (snd out)) = lib_update central_filter z hx Rcov (snd predicted) /\
    z = [0.5] /\ hx = measurement_function_ir /\ Rcov = measurement_cov_ir self.
Proof.
  exact (update_follows_with_own_model central_filter level_attitude
           (IrArrival (mkRange (mkTime 3 0) 0.5))
           (running_at 2 (repeat 0 12) central_filter) 2
           eq_refl central_predict_returns).
Defined.

Lemma predicted_time_telescopes_witness :
  let arrivals := [ IrArrival (mkRange (mkTime 2 0) 0.5);
                    OpticalFlowArrival (mkMode (mkTime 5 0) 0 0 0) ] in
  let self := running_at 1 (repeat 0 12) failing_filter in
  let self' := spin failing_filter level_attitude arrivals self in
  let t1 := last (map (fun a => to_seconds (stamp a)) arrivals) 1 in
  last_state_transition_time self' = Some t1 /\
  predicted_time (calls self') = predicted_time (calls self) + (t1 - 1).
Proof.
  exact (predicted_time_telescopes failing_filter level_attitude
           [ IrArrival (mkRange (mkTime 2 0) 0.5);
             OpticalFlowArrival (mkMode (mkTime 5 0) 0 0 0) ]
           (running_at 1 (repeat 0 12) failing_filter) 1 eq_refl).
Defined.

Lemma ordered_stamps_nonnegative_dt_witness :
  exists d,
    dt (snd (deliver central_filter level_attitude
               (IrArrival (mkRange (mkTime 2 0) 0.5))
               (running_at (to_seconds (mkTime 1 500)) (repeat 0 12) central_filter)))
      = Some d /\ 0 <= d.
Proof.
  apply (ordered_stamps_nonnegative_dt central_filter level_attitude
           (IrArrival (mkRange (mkTime 2 0) 0.5))
           (running_at (to_seconds (mkTime 1 500)) (repeat 0 12) central_filter)
           (mkTime 1 500)).
  - reflexivity.
  - simpl. lia.
  - simpl. lia.
  - left. simpl. lia.
Defined.

(** * Properties of the optical-flow filters *)

(** ** Arrays: assignment, shape, extensionality *)

Lemma set_nth_length (row : np.vector) (j : nat) (v : R) :
  length (np.set_nth row j v) = length row.
Proof.
  revert j. induction row as [ | h t IH ]; intros [ | j ]; simpl; auto.
Qed.

Lemma nth_set_nth (row : np.vector) (j i : nat) (v : R) :
  (j < length row)%nat ->
  nth i (np.set_nth row j v) 0 = if Nat.eqb i j then v else nth i row 0.
Proof.
  revert j i. induction row as [ | h t IH ]; intros j i Hj; simpl in Hj.
  - lia.
  - destruct j as [ | j ], i as [ | i ]; simpl; try reflexivity.
    apply IH. lia.
Qed.

Lemma setitem_length (A : np.matrix) (j i : nat) (v : R) :
  length (np.setitem A j i v) = length A.
Proof.
  revert j. induction A as [ | row A IH ]; intros [ | j ]; simpl; auto.
Qed.

Lemma nth_setitem (A : np.matrix) (j i j' : nat) (v : R) :
  nth j' (np.setitem A j i v) [] =
    if Nat.eqb j' j then np.set_nth (nth j A []) i v else nth j' A [].
Proof.
  revert j j'. induction A as [ | row A IH ]; intros j j'; simpl.
  - destruct (Nat.eqb j' j), j, j'; reflexivity.
  - destruct j as [ | j ], j' as [ | j' ]; simpl; try reflexivity.
    apply IH.
Qed.

Lemma rectangular_nth (rows cols : nat) (A : np.matrix) (j : nat) :
  rectangular rows cols A -> (j < rows)%nat -> length (nth j A []) = cols.
Proof.
  intros [ Hl Hf ] Hj. rewrite Forall_forall in Hf.
  apply Hf. apply nth_In. lia.
Qed.

Lemma setitem_rectangular (rows cols : nat) (A : np.matrix) (j i : nat) (v : R) :
  rectangular rows cols A -> rectangular rows cols (np.setitem A j i v).
Proof.
  intros [ Hl Hf ]. split.
  - rewrite setitem_length. exact Hl.
  - clear Hl. revert j. induction Hf as [ | row A Hrow Htl IH ]; intros [ | j ]; simpl.
    + constructor.
    + constructor.
    + constructor; [ rewrite set_nth_length; exact Hrow | assumption ].
    + constructor; [ exact Hrow | apply IH ].
Qed.

Lemma entry_setitem (rows cols : nat) (A : np.matrix) (j i j' i' : nat) (v : R) :
  rectangular rows cols A -> (j < rows)%nat -> (i < cols)%nat ->
  entry (np.setitem A j i v) j' i' =
    if (Nat.eqb j' j && Nat.eqb i' i)%bool then v else entry A j' i'.
Proof.
  intros HA Hj Hi. unfold entry. rewrite nth_setitem.
  destruct (Nat.eqb j' j) eqn:Ej; simpl.
  - apply Nat.eqb_eq in Ej. subst j'.
    rewrite nth_set_nth by (rewrite (rectangular_nth rows cols); assumption).
    reflexivity.
  - reflexivity.
Qed.

Lemma matrix_ext (rows cols : nat) (A B : np.matrix) :
  rectangular rows cols A -> rectangular rows cols B ->
  (forall j i, (j < rows)%nat -> (i < cols)%nat -> entry A j i = entry B j i) ->
  A = B.
Proof.
  intros HA HB Hent.
  apply (nth_ext A B [] []).
  - destruct HA, HB. congruence.
  - intros j Hj. destruct HA as [ HlA HfA ] eqn:EA. clear EA.
    assert (Hj' : (j < rows)%nat) by lia.
    apply (nth_ext _ _ 0 0).
    + rewrite (rectangular_nth rows cols A), (rectangular_nth rows cols B);
        auto; split; assumption.
    + intros i Hi.
      rewrite (rectangular_nth rows cols A) in Hi by (auto; split; assumption).
      apply (Hent j i Hj' Hi).
Qed.

Lemma tabulate_rectangular (rows cols : nat) (f : nat -> nat -> R) :
  rectangular rows cols (tabulate rows cols f).
Proof.
  split.
  - unfold tabulate. rewrite length_map, length_seq. reflexivity.
  - unfold tabulate. rewrite Forall_forall. intros row Hin.
    apply in_map_iff in Hin. destruct Hin as (j & <- & _).
    rewrite length_map, length_seq. reflexivity.
Qed.

Lemma entry_tabulate (rows cols : nat) (f : nat -> nat -> R) (j i : nat) :
  (j < rows)%nat -> (i < cols)%nat -> entry (tabulate rows cols f) j i = f j i.
Proof.
  intros Hj Hi. unfold entry, tabulate.
  rewrite (nth_indep _ [] (map (f 0%nat) (seq 0 cols)))
    by (rewrite length_map, length_seq; exact Hj).
  rewrite (map_nth (fun j => map (f j) (seq 0 cols)) (seq 0 rows) 0%nat j).
  rewrite seq_nth by exact Hj. simpl.
  rewrite (nth_indep _ 0 (f j 0%nat)) by (rewrite length_map, length_seq; exact Hi).
  rewrite (map_nth (f j) (seq 0 cols) 0%nat i).
  rewrite seq_nth by exact Hi. reflexivity.
Qed.

Lemma zeros_rectangular (rows cols : nat) :
  rectangular rows cols (picam_flow.zeros rows cols).
Proof.
  split.
  - apply repeat_length.
  - unfold picam_flow.zeros. rewrite Forall_forall. intros row Hin.
    apply repeat_spec in Hin. subst row. apply repeat_length.
Qed.

Lemma entry_zeros (rows cols j i : nat) :
  entry (picam_flow.zeros rows cols) j i = 0.
Proof.
  unfold entry, picam_flow.zeros.
  destruct (Nat.lt_ge_cases j rows) as [ Hj | Hj ].
  - rewrite nth_repeat_lt by exact Hj.
    destruct (Nat.lt_ge_cases i cols) as [ Hi | Hi ].
    + apply nth_repeat_lt. exact Hi.
    + apply nth_overflow. rewrite repeat_length. exact Hi.
  - rewrite (nth_overflow (repeat (repeat 0 cols) rows) [])
      by (rewrite repeat_length; exact Hj).
    destruct i; reflexivity.
Qed.

(** ** The loops of [get_z_filter] *)

(** The inner loop over the first [m] rows of column [i]. *)
Lemma inner_loop (rows cols : nat) (mr mc : R) (i m : nat) (A B : np.matrix) :
  rectangular rows cols A -> rectangular rows cols B ->
  (i < cols)%nat -> (m <= rows)%nat ->
  let out := fold_left (picam_flow.fill_cell mr mc i) (seq 0 m) (A, B) in
  rectangular rows cols (fst out) /\
  rectangular rows cols (snd out) /\
  forall j' i', (j' < rows)%nat -> (i' < cols)%nat ->
    entry (fst out) j' i' =
      (if (Nat.eqb i' i && Nat.ltb j' m)%bool then INR i - mc else entry A j' i') /\
    entry (snd out) j' i' =
      (if (Nat.eqb i' i && Nat.ltb j' m)%bool then INR j' - mr else entry B j' i').
Proof.
  intros HA HB Hi. induction m as [ | m IH ]; intros Hm; cbv zeta.
  - simpl. split; [ exact HA | split; [ exact HB | ] ].
    intros j' i' _ _. rewrite andb_false_r. split; reflexivity.
  - rewrite seq_S, fold_left_app. simpl.
    destruct (IH ltac:(lia)) as (RA & RB & Hent). cbv zeta in RA, RB, Hent.
    set (out := fold_left (picam_flow.fill_cell mr mc i) (seq 0 m) (A, B)) in *.
    cbv [picam_flow.fill_cell]. cbn [fst snd].
    split; [ apply setitem_rectangular; exact RA | ].
    split; [ apply setitem_rectangular; exact RB | ].
    intros j' i' Hj' Hi'.
    rewrite (entry_setitem rows cols) by (assumption || lia).
    rewrite (entry_setitem rows cols) by (assumption || lia).
    destruct (Hent j' i' Hj' Hi') as (E1 & E2). rewrite E1, E2.
    destruct (Nat.eqb j' m) eqn:Ej, (Nat.eqb i' i) eqn:Ei; simpl.
    + apply Nat.eqb_eq in Ej. subst j'.
      replace (Nat.ltb m (S m)) with true by (symmetry; apply Nat.ltb_lt; lia).
      split; reflexivity.
    + split; reflexivity.
    + apply Nat.eqb_neq in Ej.
      destruct (Nat.ltb j' m) eqn:El.
      * replace (Nat.ltb j' (S m)) with true
          by (symmetry; apply Nat.ltb_lt; apply Nat.ltb_lt in El; lia).
        split; reflexivity.
      * replace (Nat.ltb j' (S m)) with false
          by (symmetry; apply Nat.ltb_ge; apply Nat.ltb_ge in El; lia).
        split; reflexivity.
    + split; reflexivity.
Qed.

(** The outer loop over the first [k] columns, started on zeros. *)
Lemma outer_loop (rows nc : nat) (mr mc : R) (k : nat) :
  (k <= nc)%nat ->
  let out :=
    fold_left
      (fun filters i =>
         fold_left (picam_flow.fill_cell mr mc i) (seq 0 rows) filters)
      (seq 0 k)
      (picam_flow.zeros rows (nc + 1), picam_flow.zeros rows (nc + 1)) in
  rectangular rows (nc + 1) (fst out) /\
  rectangular rows (nc + 1) (snd out) /\
  forall j' i', (j' < rows)%nat -> (i' < nc + 1)%nat ->
    entry (fst out) j' i' = (if Nat.ltb i' k then INR i' - mc else 0) /\
    entry (snd out) j' i' = (if Nat.ltb i' k then INR j' - mr else 0).
Proof.
  induction k as [ | k IH ]; intros Hk; cbv zeta.
  - simpl. split; [ apply zeros_rectangular | split; [ apply zeros_rectangular | ] ].
    intros j' i' _ _. rewrite !entry_zeros. split; reflexivity.
  - rewrite seq_S, fold_left_app. simpl.
    destruct (IH ltac:(lia)) as (RA & RB & Hent). cbv zeta in RA, RB, Hent.
    set (out := fold_left _ (seq 0 k) _) in *.
    destruct out as [ A B ] eqn:Eout. simpl in RA, RB, Hent.
    destruct (inner_loop rows (nc + 1) mr mc k rows A B RA RB ltac:(lia) (Nat.le_refl _))
      as (RA' & RB' & Hent').
    cbv zeta in RA', RB', Hent'.
    split; [ exact RA' | split; [ exact RB' | ] ].
    intros j' i' Hj' Hi'.
    destruct (Hent' j' i' Hj' Hi') as (E1 & E2). rewrite E1, E2.
    destruct (Hent j' i' Hj' Hi') as (F1 & F2). rewrite F1, F2.
    replace (Nat.ltb j' rows) with true by (symmetry; apply Nat.ltb_lt; exact Hj').
    rewrite andb_true_r.
    destruct (Nat.eqb i' k) eqn:Ei.
    + apply Nat.eqb_eq in Ei. subst i'.
      replace (Nat.ltb k (S k)) with true by (symmetry; apply Nat.ltb_lt; lia).
      split; reflexivity.
    + apply Nat.eqb_neq in Ei.
      destruct (Nat.ltb i' k) eqn:El.
      * replace (Nat.ltb i' (S k)) with true
          by (symmetry; apply Nat.ltb_lt; apply Nat.ltb_lt in El; lia).
        split; reflexivity.
      * replace (Nat.ltb i' (S k)) with false
          by (symmetry; apply Nat.ltb_ge; apply Nat.ltb_ge in El; lia).
        split; reflexivity.
Qed.

(** What the two loops leave in the arrays: centred column numbers in
    [z_filter_x], centred row numbers in [z_filter_y], and zeros in the
    extra last column of both. *)
Lemma fill_closed_form (rows nc : nat) (mr mc : R) :
  picam_flow.fill rows nc mr mc
    (picam_flow.zeros rows (nc + 1), picam_flow.zeros rows (nc + 1)) =
  (tabulate rows (nc + 1) (fun _ i => if Nat.ltb i nc then INR i - mc else 0),
   tabulate rows (nc + 1) (fun j i => if Nat.ltb i nc then INR j - mr else 0)).
Proof.
  unfold picam_flow.fill.
  destruct (outer_loop rows nc mr mc nc (Nat.le_refl _)) as (RA & RB & Hent).
  cbv zeta in RA, RB, Hent.
  set (out := fold_left _ (seq 0 nc) _) in *.
  destruct out as [ A B ]. simpl in RA, RB, Hent.
  f_equal.
  - apply (matrix_ext rows (nc + 1)); [ exact RA | apply tabulate_rectangular | ].
    intros j i Hj Hi. rewrite entry_tabulate by assumption.
    apply (Hent j i Hj Hi).
  - apply (matrix_ext rows (nc + 1)); [ exact RB | apply tabulate_rectangular | ].
    intros j i Hj Hi. rewrite entry_tabulate by assumption.
    apply (Hent j i Hj Hi).
Qed.

(** ** Sums *)

Lemma sum1_app (a b : np.vector) :
  picam_flow.sum1 (a ++ b) = picam_flow.sum1 a + picam_flow.sum1 b.
Proof.
  unfold picam_flow.sum1. induction a as [ | v a IH ]; simpl.
  - ring.
  - rewrite IH. ring.
Qed.

Lemma sum1_map_times {A} (f : A -> R) (c : R) (l : list A) :
  picam_flow.sum1 (map (fun v => c * f v) l) = c * picam_flow.sum1 (map f l).
Proof.
  unfold picam_flow.sum1. induction l as [ | v l IH ]; simpl.
  - ring.
  - rewrite IH. ring.
Qed.

Lemma sum1_map_plus {A} (f g : A -> R) (l : list A) :
  picam_flow.sum1 (map (fun v => f v + g v) l) =
  picam_flow.sum1 (map f l) + picam_flow.sum1 (map g l).
Proof.
  unfold picam_flow.sum1. induction l as [ | v l IH ]; simpl.
  - ring.
  - rewrite IH. ring.
Qed.

Lemma sum1_const {A} (c : R) (l : list A) :
  picam_flow.sum1 (map (fun _ => c) l) = INR (length l) * c.
Proof.
  unfold picam_flow.sum1. induction l as [ | v l IH ].
  - simpl. ring.
  - cbn [map fold_right length]. rewrite IH, S_INR. ring.
Qed.

Lemma sum1_nonneg (l : np.vector) :
  Forall (fun v => 0 <= v) l -> 0 <= picam_flow.sum1 l.
Proof.
  unfold picam_flow.sum1. induction 1 as [ | v l Hv _ IH ]; simpl; lra.
Qed.

(** 0 + 1 + ... + (n-1), less [c] for each term. *)
Lemma sum1_centred (n : nat) (c : R) :
  picam_flow.sum1 (map (fun i => INR i - c) (seq 0 n)) =
  INR n * (INR n - 1) / 2 - INR n * c.
Proof.
  induction n as [ | n IH ].
  - simpl. unfold picam_flow.sum1. simpl. lra.
  - rewrite seq_S, map_app, sum1_app, IH. simpl map.
    unfold picam_flow.sum1 at 1. simpl fold_right. rewrite S_INR. lra.
Qed.

(** Centred on the middle, the numbers 0 .. n-1 add up to zero. *)
Lemma sum1_centred_on_middle (n : nat) :
  picam_flow.sum1 (map (fun i => INR i - (INR n - 1) / 2) (seq 0 n)) = 0.
Proof.
  rewrite sum1_centred. lra.
Qed.

(** ** The filters in closed form *)

(** An array whose extra last column is zero, row by row. *)
Lemma tabulate_with_buffer (rows nc : nat) (g : nat -> nat -> R) :
  tabulate rows (nc + 1) (fun j i => if Nat.ltb i nc then g j i else 0) =
  map (fun j => map (g j) (seq 0 nc) ++ [0]) (seq 0 rows).
Proof.
  unfold tabulate. apply map_ext. intros j.
  rewrite Nat.add_1_r, seq_S, map_app. simpl.
  rewrite Nat.ltb_irrefl. f_equal.
  apply map_ext_in. intros i Hin. apply in_seq in Hin.
  replace (Nat.ltb i nc) with true by (symmetry; apply Nat.ltb_lt; lia).
  reflexivity.
Qed.

(** The arrays before the division by their norms. *)
Lemma fill_rows (rows nc : nat) (mr mc : R) :
  picam_flow.fill rows nc mr mc
    (picam_flow.zeros rows (nc + 1), picam_flow.zeros rows (nc + 1)) =
  (map (fun _ => map (fun i => INR i - mc) (seq 0 nc) ++ [0]) (seq 0 rows),
   map (fun j => map (fun _ => INR j - mr) (seq 0 nc) ++ [0]) (seq 0 rows)).
Proof.
  rewrite fill_closed_form.
  rewrite (tabulate_with_buffer rows nc (fun _ i => INR i - mc)).
  rewrite (tabulate_with_buffer rows nc (fun j _ => INR j - mr)).
  reflexivity.
Qed.

Lemma sum_map_times (f : R -> R) (c : R) (A : np.matrix) :
  picam_flow.sum (map (map (fun v => c * f v)) A) =
  c * picam_flow.sum (map (map f) A).
Proof.
  unfold picam_flow.sum. rewrite !map_map.
  rewrite <- (sum1_map_times (fun row => picam_flow.sum1 (map f row)) c A).
  f_equal. apply map_ext. intros row. apply sum1_map_times.
Qed.

Lemma sum_squares_nonneg (A : np.matrix) :
  0 <= picam_flow.sum (map (map (fun v => v * v)) A).
Proof.
  unfold picam_flow.sum. rewrite map_map. apply sum1_nonneg.
  rewrite Forall_forall. intros s Hin.
  apply in_map_iff in Hin. destruct Hin as (row & <- & _).
  apply sum1_nonneg. rewrite Forall_forall. intros q Hq.
  apply in_map_iff in Hq. destruct Hq as (v & <- & _). nra.
Qed.

Lemma sum1_ge_member (l : np.vector) (v : R) :
  Forall (fun w => 0 <= w) l -> In v l -> v <= picam_flow.sum1 l.
Proof.
  unfold picam_flow.sum1. induction 1 as [ | w l Hw Hl IH ]; intros Hin.
  - destruct Hin.
  - simpl. destruct Hin as [ -> | Hin ].
    + pose proof (sum1_nonneg l Hl) as Hs. unfold picam_flow.sum1 in Hs. lra.
    + specialize (IH Hin). lra.
Qed.

Lemma sum_squares_ge_entry (A : np.matrix) (row : np.vector) (v : R) :
  In row A -> In v row ->
  v * v <= picam_flow.sum (map (map (fun w => w * w)) A).
Proof.
  intros Hrow Hv. unfold picam_flow.sum. rewrite map_map.
  apply Rle_trans with (picam_flow.sum1 (map (fun w => w * w) row)).
  - apply sum1_ge_member.
    + rewrite Forall_forall. intros q Hq.
      apply in_map_iff in Hq. destruct Hq as (w & <- & _). nra.
    + exact (in_map (fun w => w * w) row v Hv).
  - apply sum1_ge_member.
    + rewrite Forall_forall. intros s Hin.
      apply in_map_iff in Hin. destruct Hin as (r & <- & _).
      apply sum1_nonneg. rewrite Forall_forall. intros q Hq.
      apply in_map_iff in Hq. destruct Hq as (w & <- & _). nra.
    + apply in_map_iff. exists row. split; [ reflexivity | exact Hrow ].
Qed.

Lemma norm_positive (A : np.matrix) (row : np.vector) (v : R) :
  In row A -> In v row -> v <> 0 -> 0 < picam_flow.norm A.
Proof.
  intros Hrow Hv Hne. unfold picam_flow.norm. apply sqrt_lt_R0.
  pose proof (sum_squares_ge_entry A row v Hrow Hv). nra.
Qed.

(** Dividing an array by its own non-zero norm gives norm 1. *)
Lemma norm_divide (A : np.matrix) :
  0 < picam_flow.norm A ->
  picam_flow.norm (picam_flow.divide A (picam_flow.norm A)) = 1.
Proof.
  intros Hpos. unfold picam_flow.norm at 1. unfold picam_flow.divide.
  rewrite map_map.
  rewrite (map_ext (fun row => map (fun v => v * v) (map (fun v => v / picam_flow.norm A) row))
                   (map (fun v => / (picam_flow.norm A * picam_flow.norm A) * (v * v)))).
  2:{ intros row. rewrite map_map. apply map_ext. intros v. field. lra. }
  rewrite (sum_map_times (fun v => v * v)).
  replace (picam_flow.norm A * picam_flow.norm A)
    with (picam_flow.sum (map (map (fun v => v * v)) A)).
  2:{ unfold picam_flow.norm. rewrite sqrt_sqrt; [ reflexivity | ].
      apply sum_squares_nonneg. }
  assert (Hs : 0 < picam_flow.sum (map (map (fun v => v * v)) A)).
  { unfold picam_flow.norm in Hpos.
    destruct (Rle_lt_or_eq_dec _ _ (sum_squares_nonneg A)) as [ H | H ];
      [ exact H | ].
    rewrite <- H, sqrt_0 in Hpos. lra. }
  rewrite Rinv_l by lra. apply sqrt_1.
Qed.

Lemma divide_rectangular (rows cols : nat) (A : np.matrix) (s : R) :
  rectangular rows cols A -> rectangular rows cols (picam_flow.divide A s).
Proof.
  intros [ Hl Hf ]. unfold picam_flow.divide. split.
  - rewrite length_map. exact Hl.
  - rewrite Forall_forall in *. intros row Hin.
    apply in_map_iff in Hin. destruct Hin as (r & <- & Hr).
    rewrite length_map. apply Hf. exact Hr.
Qed.

Lemma divide_tabulate (rows cols : nat) (f : nat -> nat -> R) (s : R) :
  picam_flow.divide (tabulate rows cols f) s =
  tabulate rows cols (fun j i => f j i / s).
Proof.
  unfold picam_flow.divide, tabulate. rewrite map_map.
  apply map_ext. intros j. rewrite map_map. reflexivity.
Qed.

Lemma norm_positive_entry (rows cols : nat) (A : np.matrix) (j i : nat) :
  rectangular rows cols A -> (j < rows)%nat -> (i < cols)%nat ->
  entry A j i <> 0 -> 0 < picam_flow.norm A.
Proof.
  intros HA Hj Hi Hne.
  apply (norm_positive A (nth j A []) (entry A j i)).
  - apply nth_In. destruct HA as [ Hl _ ]. lia.
  - unfold entry. apply nth_In.
    rewrite (rectangular_nth rows cols) by assumption. exact Hi.
  - exact Hne.
Qed.

(** ** [get_z_filter]: the assert, the shapes, the entries, the norms *)

Lemma get_z_filter_passes (width height : nat) :
  (width mod 16 = 0)%nat -> (height mod 16 = 0)%nat ->
  let nr := (height / 16)%nat in
  let nc := (width / 16)%nat in
  let raw_x := tabulate nr (nc + 1)
                 (fun _ i => if Nat.ltb i nc then INR i - (INR nc - 1) / 2 else 0) in
  let raw_y := tabulate nr (nc + 1)
                 (fun j i => if Nat.ltb i nc then INR j - (INR nr - 1) / 2 else 0) in
  picam_flow.get_z_filter width height =
    picam_flow.Passed (picam_flow.divide raw_x (picam_flow.norm raw_x),
                       picam_flow.divide raw_y (picam_flow.norm raw_y)).
Proof.
  intros Hw Hh. cbv zeta. unfold picam_flow.get_z_filter.
  rewrite Hw, Hh. simpl andb. cbv iota zeta.
  rewrite fill_closed_form. reflexivity.
Qed.

Lemma get_z_filter_fails (width height : nat) :
  (width mod 16 <> 0)%nat \/ (height mod 16 <> 0)%nat ->
  picam_flow.get_z_filter width height = picam_flow.AssertionError.
Proof.
  intros Hbad. unfold picam_flow.get_z_filter.
  destruct (Nat.eqb (width mod 16) 0) eqn:Ew, (Nat.eqb (height mod 16) 0) eqn:Eh;
    simpl; try reflexivity.
  apply Nat.eqb_eq in Ew, Eh. destruct Hbad; contradiction.
Qed.

Lemma raw_norms_positive (nr nc : nat) :
  (2 <= nr)%nat -> (2 <= nc)%nat ->
  0 < picam_flow.norm
        (tabulate nr (nc + 1)
           (fun _ i => if Nat.ltb i nc then INR i - (INR nc - 1) / 2 else 0)) /\
  0 < picam_flow.norm
        (tabulate nr (nc + 1)
           (fun j i => if Nat.ltb i nc then INR j - (INR nr - 1) / 2 else 0)).
Proof.
  intros Hr Hc.
  assert (Hnr : 2 <= INR nr) by (apply le_INR in Hr; simpl in Hr; lra).
  assert (Hnc : 2 <= INR nc) by (apply le_INR in Hc; simpl in Hc; lra).
  split.
  - apply (norm_positive_entry nr (nc + 1) _ 0 0);
      [ apply tabulate_rectangular | lia | lia | ].
    rewrite entry_tabulate by lia.
    replace (Nat.ltb 0 nc) with true by (symmetry; apply Nat.ltb_lt; lia).
    simpl. lra.
  - apply (norm_positive_entry nr (nc + 1) _ 0 0);
      [ apply tabulate_rectangular | lia | lia | ].
    rewrite entry_tabulate by lia.
    replace (Nat.ltb 0 nc) with true by (symmetry; apply Nat.ltb_lt; lia).
    simpl. lra.
Qed.

(** The frame size must be a multiple of 16 in both directions, or the
    assert fails; when it passes, both filters have one row per block row
    and one column per block column plus one. *)
Theorem get_z_filter_assert_and_shape (width height : nat) :
  match picam_flow.get_z_filter width height with
  | picam_flow.Passed (zx, zy) =>
      (width mod 16 = 0)%nat /\ (height mod 16 = 0)%nat /\
      rectangular (height / 16) (width / 16 + 1) zx /\
      rectangular (height / 16) (width / 16 + 1) zy
  | picam_flow.AssertionError =>
      (width mod 16 <> 0)%nat \/ (height mod 16 <> 0)%nat
  end.
Proof.
  destruct (Nat.eq_dec (width mod 16) 0) as [ Hw | Hw ];
    [ destruct (Nat.eq_dec (height mod 16) 0) as [ Hh | Hh ] | ].
  - rewrite (get_z_filter_passes width height Hw Hh).
    split; [ exact Hw | split; [ exact Hh | ] ].
    split; apply divide_rectangular, tabulate_rectangular.
  - rewrite get_z_filter_fails by (right; exact Hh). right. exact Hh.
  - rewrite get_z_filter_fails by (left; exact Hw). left. exact Hw.
Qed.

(** For a frame of at least two blocks each way, [z_filter_x] holds in
    every row the column numbers centred on the middle column, and
    [z_filter_y] holds in every column the row numbers centred on the
    middle row, each scaled by one positive factor; the extra last column
    of both is zero. *)
Theorem z_filter_entries (width height : nat) :
  (width mod 16 = 0)%nat -> (height mod 16 = 0)%nat ->
  (32 <= width)%nat -> (32 <= height)%nat ->
  let nr := (height / 16)%nat in
  let nc := (width / 16)%nat in
  exists zx zy sx sy,
    picam_flow.get_z_filter width height = picam_flow.Passed (zx, zy) /\
    0 < sx /\ 0 < sy /\
    forall j, (j < nr)%nat ->
      (forall i, (i < nc)%nat ->
         entry zx j i = (INR i - (INR nc - 1) / 2) / sx /\
         entry zy j i = (INR j - (INR nr - 1) / 2) / sy) /\
      entry zx j nc = 0 /\
      entry zy j nc = 0.
Proof.
  intros Hw Hh Hw32 Hh32. cbv zeta.
  assert (Hnr : (2 <= height / 16)%nat)
    by (apply (Nat.div_le_lower_bound height 16 2); lia).
  assert (Hnc : (2 <= width / 16)%nat)
    by (apply (Nat.div_le_lower_bound width 16 2); lia).
  destruct (raw_norms_positive _ _ Hnr Hnc) as (Px & Py).
  rewrite (get_z_filter_passes width height Hw Hh).
  do 4 eexists. split; [ reflexivity | ].
  split; [ exact Px | split; [ exact Py | ] ].
  intros j Hj. rewrite !divide_tabulate. split; [ | split ].
  - intros i Hi. rewrite !entry_tabulate by lia.
    replace (Nat.ltb i (width / 16)) with true by (symmetry; apply Nat.ltb_lt; lia).
    split; reflexivity.
  - rewrite entry_tabulate by lia. rewrite Nat.ltb_irrefl. unfold Rdiv. ring.
  - rewrite entry_tabulate by lia. rewrite Nat.ltb_irrefl. unfold Rdiv. ring.
Qed.

Lemma z_filter_entries_witness :
  exists zx zy sx sy,
    picam_flow.get_z_filter 32 48 = picam_flow.Passed (zx, zy) /\
    0 < sx /\ 0 < sy /\
    forall j, (j < 48 / 16)%nat ->
      (forall i, (i < 32 / 16)%nat ->
         entry zx j i = (INR i - (INR (32 / 16) - 1) / 2) / sx /\
         entry zy j i = (INR j - (INR (48 / 16) - 1) / 2) / sy) /\
      entry zx j (32 / 16) = 0 /\
      entry zy j (32 / 16) = 0.
Proof.
  apply (z_filter_entries 32 48); [ reflexivity | reflexivity | lia | lia ].
Defined.

(** For a frame of at least two blocks each way, each of the two filters
    that [get_z_filter] stores has Frobenius norm 1. *)
Theorem z_filters_have_unit_norm (width height : nat) :
  (width mod 16 = 0)%nat -> (height mod 16 = 0)%nat ->
  (32 <= width)%nat -> (32 <= height)%nat ->
  exists zx zy,
    picam_flow.get_z_filter width height = picam_flow.Passed (zx, zy) /\
    picam_flow.norm zx = 1 /\
    picam_flow.norm zy = 1.
Proof.
  intros Hw Hh Hw32 Hh32.
  assert (Hnr : (2 <= height / 16)%nat)
    by (apply (Nat.div_le_lower_bound height 16 2); lia).
  assert (Hnc : (2 <= width / 16)%nat)
    by (apply (Nat.div_le_lower_bound width 16 2); lia).
  destruct (raw_norms_positive _ _ Hnr Hnc) as (Px & Py).
  rewrite (get_z_filter_passes width height Hw Hh).
  do 2 eexists. split; [ reflexivity | ].
  split; apply norm_divide; assumption.
Qed.

Lemma z_filters_have_unit_norm_witness :
  exists zx zy,
    picam_flow.get_z_filter 320 240 = picam_flow.Passed (zx, zy) /\
    picam_flow.norm zx = 1 /\
    picam_flow.norm zy = 1.
Proof.
  apply (z_filters_have_unit_norm 320 240); [ reflexivity | reflexivity | lia | lia ].
Defined.

(** ** A uniform flow field against a filter *)

Lemma sum_cons (row : np.vector) (A : np.matrix) :
  picam_flow.sum (row :: A) = picam_flow.sum1 row + picam_flow.sum A.
Proof. reflexivity. Qed.

Lemma multiply_row_uniform (c b : Z) (w : np.vector) :
  picam_flow.multiply_row (map IZR (repeat c (length w) ++ [b])) (w ++ [0]) =
    Some (map (fun v => IZR c * v) w ++ [IZR b * 0]).
Proof.
  induction w as [ | v w IH ]; simpl.
  - reflexivity.
  - simpl in IH. rewrite IH. reflexivity.
Qed.

(** Against a filter whose extra column is zero, a uniform flow [c] sums
    to [c] times the sum of the filter; the extra column of the flow does
    not count. *)
Lemma multiply_uniform (nc : nat) (c : Z) (X : list (list Z)) (F : np.matrix) :
  uniform_flow nc c X -> zero_buffer nc F -> length X = length F ->
  exists P,
    picam_flow.multiply (picam_flow.as_float X) F = Some P /\
    picam_flow.sum P = IZR c * picam_flow.sum F.
Proof.
  intros HX. revert F. induction HX as [ | row X (b & ->) _ IH ];
    intros F HF Hlen.
  - destruct F; [ | discriminate Hlen ].
    exists []. split; [ reflexivity | ].
    unfold picam_flow.sum, picam_flow.sum1. simpl. ring.
  - destruct HF as [ | frow F (w & -> & Hw) HF ]; [ discriminate Hlen | ].
    destruct (IH F HF ltac:(simpl in Hlen; lia)) as (P & HP & HS).
    subst nc. cbn [picam_flow.as_float map picam_flow.multiply].
    fold (picam_flow.as_float X).
    rewrite multiply_row_uniform, HP.
    eexists. split; [ reflexivity | ].
    rewrite !sum_cons, HS, !sum1_app, sum1_map_times, (map_id w).
    unfold picam_flow.sum1 at 2 4. simpl. ring.
Qed.

Lemma zero_buffer_rows {A} (nc : nat) (r : A -> np.vector) (l : list A) :
  (forall j, length (r j) = nc) ->
  zero_buffer nc (map (fun j => r j ++ [0]) l).
Proof.
  intros Hr. unfold zero_buffer. rewrite Forall_forall. intros row Hin.
  apply in_map_iff in Hin. destruct Hin as (j & <- & _).
  exists (r j). split; [ reflexivity | apply Hr ].
Qed.

Lemma zero_buffer_map (nc : nat) (g : R -> R) (F : np.matrix) :
  g 0 = 0 -> zero_buffer nc F -> zero_buffer nc (map (map g) F).
Proof.
  intros Hg HF. unfold zero_buffer in *. rewrite Forall_forall in *.
  intros row Hin. apply in_map_iff in Hin. destruct Hin as (r & <- & Hr).
  destruct (HF r Hr) as (w & -> & Hw).
  exists (map g w). split.
  - rewrite map_app. simpl. rewrite Hg. reflexivity.
  - rewrite length_map. exact Hw.
Qed.

Lemma sum_map_scaled (g : R -> R) (c : R) (A : np.matrix) :
  (forall v, g v = c * v) ->
  picam_flow.sum (map (map g) A) = c * picam_flow.sum A.
Proof.
  intros Hg. induction A as [ | row A IH ].
  - unfold picam_flow.sum, picam_flow.sum1. simpl. ring.
  - cbn [map]. rewrite !sum_cons, IH.
    rewrite (map_ext g (fun v => c * v) Hg).
    rewrite (sum1_map_times (fun v => v) c row), map_id. ring.
Qed.

Lemma sum_rows_with_buffer {A} (r : A -> np.vector) (l : list A) :
  picam_flow.sum (map (fun j => r j ++ [0]) l) =
  picam_flow.sum1 (map (fun j => picam_flow.sum1 (r j)) l).
Proof.
  unfold picam_flow.sum. rewrite map_map. f_equal.
  apply map_ext. intros j. rewrite sum1_app.
  unfold picam_flow.sum1 at 2. simpl. ring.
Qed.

(** Before the division, the entries of each filter add up to zero. *)
Lemma raw_filters_sum_to_zero (nr nc : nat) :
  let raw := picam_flow.fill nr nc ((INR nr - 1) / 2) ((INR nc - 1) / 2)
               (picam_flow.zeros nr (nc + 1), picam_flow.zeros nr (nc + 1)) in
  picam_flow.sum (fst raw) = 0 /\ picam_flow.sum (snd raw) = 0 /\
  zero_buffer nc (fst raw) /\ zero_buffer nc (snd raw) /\
  length (fst raw) = nr /\ length (snd raw) = nr.
Proof.
  cbv zeta. rewrite fill_rows. cbn [fst snd].
  split; [ | split; [ | split; [ | split; [ | split ] ] ] ].
  - rewrite sum_rows_with_buffer.
    rewrite (map_ext _ (fun _ => 0)) by (intros j; apply sum1_centred_on_middle).
    rewrite sum1_const. ring.
  - rewrite sum_rows_with_buffer.
    rewrite (map_ext _ (fun j => INR nc * (INR j - (INR nr - 1) / 2))).
    + rewrite sum1_map_times, sum1_centred_on_middle. ring.
    + intros j. rewrite sum1_const, length_seq. reflexivity.
  - apply zero_buffer_rows. intros j. rewrite length_map, length_seq. reflexivity.
  - apply zero_buffer_rows. intros j. rewrite length_map, length_seq. reflexivity.
  - rewrite length_map, length_seq. reflexivity.
  - rewrite length_map, length_seq. reflexivity.
Qed.

(** The four filters [setup] stores: zero extra column, entries adding
    up to zero, one row per block row. *)
Lemma setup_filters (width height : nat) (now : R) :
  (width mod 16 = 0)%nat -> (height mod 16 = 0)%nat ->
  exists self,
    picam_flow.setup (width, height) now = picam_flow.Passed self /\
    picam_flow.ang_vx self = 0 /\ picam_flow.ang_vy self = 0 /\
    picam_flow.prev_time self = now /\
    picam_flow.yaw_filter_x self = picam_flow.z_filter_y self /\
    picam_flow.yaw_filter_y self = picam_flow.times (-1) (picam_flow.z_filter_x self) /\
    Forall (fun F => picam_flow.sum F = 0 /\
                     zero_buffer (width / 16) F /\
                     length F = (height / 16)%nat)
      [ picam_flow.z_filter_x self; picam_flow.z_filter_y self;
        picam_flow.yaw_filter_x self; picam_flow.yaw_filter_y self ].
Proof.
  intros Hw Hh. unfold picam_flow.setup, picam_flow.get_z_filter.
  cbn [fst snd]. rewrite Hw, Hh. simpl andb. cbv iota zeta.
  destruct (raw_filters_sum_to_zero (height / 16) (width / 16))
    as (Sx & Sy & Bx & By & Lx & Ly).
  cbv zeta in Sx, Sy, Bx, By, Lx, Ly.
  set (raw := picam_flow.fill _ _ _ _ _) in *.
  eexists. split; [ reflexivity | ].
  cbn [picam_flow.ang_vx picam_flow.ang_vy picam_flow.prev_time
       picam_flow.yaw_filter_x picam_flow.yaw_filter_y
       picam_flow.z_filter_x picam_flow.z_filter_y].
  repeat (split; [ reflexivity | ]).
  assert (Dx : picam_flow.sum (picam_flow.divide (fst raw) (picam_flow.norm (fst raw))) = 0
               /\ zero_buffer (width / 16)
                    (picam_flow.divide (fst raw) (picam_flow.norm (fst raw)))
               /\ length (picam_flow.divide (fst raw) (picam_flow.norm (fst raw)))
                  = (height / 16)%nat).
  { unfold picam_flow.divide. split; [ | split ].
    - rewrite (sum_map_scaled _ (/ picam_flow.norm (fst raw)))
        by (intros v; unfold Rdiv; ring).
      rewrite Sx. ring.
    - apply zero_buffer_map; [ unfold Rdiv; ring | exact Bx ].
    - rewrite length_map. exact Lx. }
  assert (Dy : picam_flow.sum (picam_flow.divide (snd raw) (picam_flow.norm (snd raw))) = 0
               /\ zero_buffer (width / 16)
                    (picam_flow.divide (snd raw) (picam_flow.norm (snd raw)))
               /\ length (picam_flow.divide (snd raw) (picam_flow.norm (snd raw)))
                  = (height / 16)%nat).
  { unfold picam_flow.divide. split; [ | split ].
    - rewrite (sum_map_scaled _ (/ picam_flow.norm (snd raw)))
        by (intros v; unfold Rdiv; ring).
      rewrite Sy. ring.
    - apply zero_buffer_map; [ unfold Rdiv; ring | exact By ].
    - rewrite length_map. exact Ly. }
  repeat constructor; try (apply Dx); try (apply Dy).
  - unfold picam_flow.times. rewrite (sum_map_scaled _ (-1)) by reflexivity.
    destruct Dx as (-> & _). ring.
  - unfold picam_flow.times. apply zero_buffer_map; [ ring | apply Dx ].
  - unfold picam_flow.times. rewrite length_map. apply Dx.
Qed.

(** ** [analyse] on the filters of [setup] *)

(** A flow field that is one and the same vector in every block (the
    extra column holding anything) gives no z motion and no yaw motion,
    whatever the angular velocity set and whatever the clock reads. *)
Theorem uniform_flow_gives_no_z_or_yaw_motion
    (width height : nat) (now curr vx vy : R) (a : picam_flow.MotionData)
    (cx cy : Z) :
  (width mod 16 = 0)%nat -> (height mod 16 = 0)%nat ->
  (32 <= width)%nat -> (32 <= height)%nat ->
  length (picam_flow.motion_x a) = (height / 16)%nat ->
  length (picam_flow.motion_y a) = (height / 16)%nat ->
  uniform_flow (width / 16) cx (picam_flow.motion_x a) ->
  uniform_flow (width / 16) cy (picam_flow.motion_y a) ->
  exists self m,
    picam_flow.setup (width, height) now = picam_flow.Passed self /\
    fst (picam_flow.analyse a curr (picam_flow.set_angular_velocity vx vy self))
      = Some m /\
    picam_flow.z_motion m = 0 /\
    picam_flow.yaw_motion m = 0.
Proof.
  intros Hw Hh _ _ Lx Ly Ux Uy.
  destruct (setup_filters width height now Hw Hh)
    as (self & Hs & _ & _ & _ & _ & _ & HF).
  inversion HF as [ | ? ? (Szx & Bzx & Lzx) HF1 ]; subst.
  inversion HF1 as [ | ? ? (Szy & Bzy & Lzy) HF2 ]; subst.
  inversion HF2 as [ | ? ? (Syx & Byx & Lyx) HF3 ]; subst.
  inversion HF3 as [ | ? ? (Syy & Byy & Lyy) _ ]; subst.
  destruct (multiply_uniform _ cx _ _ Ux Bzx ltac:(congruence)) as (P1 & M1 & S1).
  destruct (multiply_uniform _ cy _ _ Uy Bzy ltac:(congruence)) as (P2 & M2 & S2).
  destruct (multiply_uniform _ cx _ _ Ux Byx ltac:(congruence)) as (P3 & M3 & S3).
  destruct (multiply_uniform _ cy _ _ Uy Byy ltac:(congruence)) as (P4 & M4 & S4).
  exists self. eexists. split; [ exact Hs | ].
  unfold picam_flow.analyse, picam_flow.set_angular_velocity.
  cbn [picam_flow.z_filter_x picam_flow.z_filter_y
       picam_flow.yaw_filter_x picam_flow.yaw_filter_y].
  rewrite M1, M2, M3, M4. cbn [fst].
  split; [ reflexivity | ].
  cbn [picam_flow.z_motion picam_flow.yaw_motion].
  rewrite S1, S2, S3, S4, Szx, Szy, Syx, Syy. split; ring.
Qed.

Lemma uniform_flow_gives_no_z_or_yaw_motion_witness :
  let a := picam_flow.mkMotionData
             [ [3; 3; 7]; [3; 3; -1] ]%Z
             [ [-2; -2; 0]; [-2; -2; 5] ]%Z
             [ [0; 0; 0]; [0; 0; 0] ]%Z in
  exists self m,
    picam_flow.setup (32%nat, 32%nat) 10 = picam_flow.Passed self /\
    fst (picam_flow.analyse a 10.5 (picam_flow.set_angular_velocity 0.1 0.2 self))
      = Some m /\
    picam_flow.z_motion m = 0 /\
    picam_flow.yaw_motion m = 0.
Proof.
  apply (uniform_flow_gives_no_z_or_yaw_motion 32 32 10 10.5 0.1 0.2 _ 3 (-2));
    try reflexivity; try lia.
  - repeat constructor; eexists; reflexivity.
  - repeat constructor; eexists; reflexivity.
Defined.

Lemma multiply_row_turned (a b : np.vector) :
  length a = length b ->
  exists p q,
    picam_flow.multiply_row a b = Some p /\
    picam_flow.multiply_row b (map (fun v => -1 * v) a) = Some q /\
    picam_flow.sum1 p + picam_flow.sum1 q = 0.
Proof.
  revert b. induction a as [ | x a IH ]; intros [ | y b ] Hlen;
    try discriminate Hlen.
  - exists [], []. repeat split. unfold picam_flow.sum1. simpl. ring.
  - destruct (IH b ltac:(simpl in Hlen; lia)) as (p & q & Hp & Hq & Hs).
    simpl. rewrite Hp, Hq. do 2 eexists. repeat split.
    unfold picam_flow.sum1 in *. simpl. lra.
Qed.

Lemma multiply_turned (rows cols : nat) (A B : np.matrix) :
  rectangular rows cols A -> rectangular rows cols B ->
  exists P Q,
    picam_flow.multiply A B = Some P /\
    picam_flow.multiply B (picam_flow.times (-1) A) = Some Q /\
    picam_flow.sum P + picam_flow.sum Q = 0.
Proof.
  intros [ LA FA ] [ LB FB ]. subst rows. revert B LB FB.
  induction FA as [ | a A Ha _ IH ]; intros [ | b B ] LB FB;
    try discriminate LB.
  - exists [], []. repeat split.
    unfold picam_flow.sum, picam_flow.sum1. simpl. ring.
  - inversion FB as [ | ? ? Hb FB' ]; subst.
    destruct (IH B ltac:(simpl in LB; lia) FB') as (P & Q & HP & HQ & HS).
    destruct (multiply_row_turned a b ltac:(congruence)) as (p & q & Hp & Hq & Hs).
    cbn [picam_flow.times map picam_flow.multiply].
    fold (picam_flow.times (-1) A).
    rewrite Hp, Hq, HP, HQ. do 2 eexists. repeat split.
    rewrite !sum_cons. lra.
Qed.

(** The yaw filters are the z filters turned by a quarter: taken entry by
    entry, the z pair times the yaw pair adds up to zero, so the pattern
    one pair responds to most leaves the other without response. *)
Theorem z_and_yaw_filters_are_orthogonal (width height : nat) (now : R) :
  (width mod 16 = 0)%nat -> (height mod 16 = 0)%nat ->
  (32 <= width)%nat -> (32 <= height)%nat ->
  exists self P Q,
    picam_flow.setup (width, height) now = picam_flow.Passed self /\
    picam_flow.multiply (picam_flow.z_filter_x self) (picam_flow.yaw_filter_x self)
      = Some P /\
    picam_flow.multiply (picam_flow.z_filter_y self) (picam_flow.yaw_filter_y self)
      = Some Q /\
    picam_flow.sum P + picam_flow.sum Q = 0.
Proof.
  intros Hw Hh _ _.
  unfold picam_flow.setup. cbn [fst snd].
  rewrite (get_z_filter_passes width height Hw Hh).
  cbv zeta. cbn [picam_flow.get_yaw_filter].
  eexists. 
  destruct (multiply_turned (height / 16) (width / 16 + 1)
              (picam_flow.divide
                 (tabulate (height / 16) (width / 16 + 1)
                    (fun _ i => if Nat.ltb i (width / 16)
                                then INR i - (INR (width / 16) - 1) / 2 else 0))
                 (picam_flow.norm
                    (tabulate (height / 16) (width / 16 + 1)
                       (fun _ i => if Nat.ltb i (width / 16)
                                   then INR i - (INR (width / 16) - 1) / 2 else 0))))
              (picam_flow.divide
                 (tabulate (height / 16) (width / 16 + 1)
                    (fun j i => if Nat.ltb i (width / 16)
                                then INR j - (INR (height / 16) - 1) / 2 else 0))
                 (picam_flow.norm
                    (tabulate (height / 16) (width / 16 + 1)
                       (fun j i => if Nat.ltb i (width / 16)
                                   then INR j - (INR (height / 16) - 1) / 2 else 0)))))
    as (P & Q & HP & HQ & HS);
    try (apply divide_rectangular, tabulate_rectangular).
  exists P, Q. split; [ reflexivity | ].
  cbn [picam_flow.z_filter_x picam_flow.z_filter_y
       picam_flow.yaw_filter_x picam_flow.yaw_filter_y].
  split; [ exact HP | split; [ exact HQ | exact HS ] ].
Qed.

Lemma z_and_yaw_filters_are_orthogonal_witness :
  exists self P Q,
    picam_flow.setup (320%nat, 240%nat) 0 = picam_flow.Passed self /\
    picam_flow.multiply (picam_flow.z_filter_x self) (picam_flow.yaw_filter_x self)
      = Some P /\
    picam_flow.multiply (picam_flow.z_filter_y self) (picam_flow.yaw_filter_y self)
      = Some Q /\
    picam_flow.sum P + picam_flow.sum Q = 0.
Proof.
  apply (z_and_yaw_filters_are_orthogonal 320 240 0);
    [ reflexivity | reflexivity | lia | lia ].
Defined.

Lemma times_rectangular (rows cols : nat) (A : np.matrix) (s : R) :
  rectangular rows cols A -> rectangular rows cols (picam_flow.times s A).
Proof.
  intros [ Hl Hf ]. unfold picam_flow.times. split.
  - rewrite length_map. exact Hl.
  - rewrite Forall_forall in *. intros row Hin.
    apply in_map_iff in Hin. destruct Hin as (r & <- & Hr).
    rewrite length_map. apply Hf. exact Hr.
Qed.

Lemma multiply_defined (rows cols : nat) (A B : np.matrix) :
  rectangular rows cols A -> rectangular rows cols B ->
  exists P, picam_flow.multiply A B = Some P.
Proof.
  intros HA HB.
  destruct (multiply_turned rows cols A B HA HB) as (P & _ & HP & _).
  exists P. exact HP.
Qed.

(** Until [set_angular_velocity] is called, the rotation compensation is
    off: on a frame of the filters' shape, [analyse] run on the object
    [setup] returns reports the plain sums of the two motion arrays as x
    and y motion, however much time has passed, and stores the clock
    reading as [prev_time]. *)
Theorem analyse_right_after_setup
    (width height : nat) (now curr : R) (a : picam_flow.MotionData) :
  (width mod 16 = 0)%nat -> (height mod 16 = 0)%nat ->
  (32 <= width)%nat -> (32 <= height)%nat ->
  rectangular (height / 16) (width / 16 + 1)
    (picam_flow.as_float (picam_flow.motion_x a)) ->
  rectangular (height / 16) (width / 16 + 1)
    (picam_flow.as_float (picam_flow.motion_y a)) ->
  exists self m,
    picam_flow.setup (width, height) now = picam_flow.Passed self /\
    fst (picam_flow.analyse a curr self) = Some m /\
    picam_flow.x_motion m = picam_flow.sum (picam_flow.as_float (picam_flow.motion_x a)) /\
    picam_flow.y_motion m = picam_flow.sum (picam_flow.as_float (picam_flow.motion_y a)) /\
    picam_flow.prev_time (snd (picam_flow.analyse a curr self)) = curr.
Proof.
  intros Hw Hh _ _ Rx Ry.
  unfold picam_flow.setup. cbn [fst snd].
  rewrite (get_z_filter_passes width height Hw Hh).
  cbv zeta. cbn [picam_flow.get_yaw_filter].
  set (zx := picam_flow.divide _ _).
  set (zy := picam_flow.divide _ _).
  assert (Rzx : rectangular (height / 16) (width / 16 + 1) zx)
    by (apply divide_rectangular, tabulate_rectangular).
  assert (Rzy : rectangular (height / 16) (width / 16 + 1) zy)
    by (apply divide_rectangular, tabulate_rectangular).
  destruct (multiply_defined _ _ _ _ Rx Rzx) as (P1 & M1).
  destruct (multiply_defined _ _ _ _ Ry Rzy) as (P2 & M2).
  destruct (multiply_defined _ _ _ _ Rx Rzy) as (P3 & M3).
  destruct (multiply_defined _ _ _ _ Ry (times_rectangular _ _ _ (-1) Rzx))
    as (P4 & M4).
  do 2 eexists. split; [ reflexivity | ].
  unfold picam_flow.analyse.
  cbn [picam_flow.z_filter_x picam_flow.z_filter_y
       picam_flow.yaw_filter_x picam_flow.yaw_filter_y
       picam_flow.ang_vx picam_flow.ang_vy picam_flow.prev_time].
  rewrite M1, M2, M3, M4. cbn [fst snd picam_flow.prev_time].
  split; [ reflexivity | ].
  cbn [picam_flow.x_motion picam_flow.y_motion].
  rewrite !Rmult_0_l, atan_0.
  repeat split; ring.
Qed.

Lemma analyse_right_after_setup_witness :
  let a := picam_flow.mkMotionData
             [ [1; -4; 7]; [3; 0; -1] ]%Z
             [ [-2; 5; 0]; [9; -2; 5] ]%Z
             [ [0; 0; 0]; [0; 0; 0] ]%Z in
  exists self m,
    picam_flow.setup (32%nat, 32%nat) 10 = picam_flow.Passed self /\
    fst (picam_flow.analyse a 12 self) = Some m /\
    picam_flow.x_motion m = picam_flow.sum (picam_flow.as_float (picam_flow.motion_x a)) /\
    picam_flow.y_motion m = picam_flow.sum (picam_flow.as_float (picam_flow.motion_y a)) /\
    picam_flow.prev_time (snd (picam_flow.analyse a 12 self)) = 12.
Proof.
  apply (analyse_right_after_setup 32 32 10 12);
    try reflexivity; try lia;
    (split; [ reflexivity | repeat constructor ]).
Defined.
